(** * dash agent scripts: a shallow embedding of [agent_bridge.py] and [agent.py]

    The two scripts are glue code around a JSON wire format, so the embedding
    starts with Python strings and [json.dumps], then follows the source
    function by function:

    - [AgentBridge]: [emit], [emit_done], [build_prompt], [main];
    - [Agent]: [run_tool], [format_tool_call] and the loop of [chat];
    - [BridgeStdin]: [main] again, on any value [json.load] can return.

    Python [str] values are modelled as [string]; a character stands for one
    code point (the first 256 of them), so [String.length] is [len] and
    dropping a prefix is slicing.  External collaborators (the SDK stream, the
    hosted API, the dashmcp subprocess, [json.loads]) are inputs of the model:
    scripts of outcomes or section variables. *)

From Stdlib Require Import ZArith Ascii DecimalString.
From stdpp Require Import gmap strings list.

Set Warnings "-register-all".
Local Open Scope Z_scope.
Local Open Scope stdpp_scope.

(** ** Python strings *)

Module PyStr.

(** The two characters that cannot be written inside a literal here. *)
Definition dq : string := String "034"%char EmptyString.
Definition nl : string := String "010"%char EmptyString.

(** [len(s)] *)
Definition len (s : string) : nat := String.length s.

(** [s[n:]] for [0 <= n] *)
Fixpoint drop (n : nat) (s : string) : string :=
  match n, s with
  | O, _ => s
  | S _, EmptyString => EmptyString
  | S n', String _ s' => drop n' s'
  end.

(** [s[:n]] for [0 <= n] *)
Fixpoint take (n : nat) (s : string) : string :=
  match n, s with
  | O, _ => EmptyString
  | S _, EmptyString => EmptyString
  | S n', String c s' => String c (take n' s')
  end.

(** [sep.join(parts)] *)
Fixpoint join (sep : string) (parts : list string) : string :=
  match parts with
  | [] => EmptyString
  | [p] => p
  | p :: rest => p +:+ sep +:+ join sep rest
  end.

(** [c.isspace()] on the first 256 code points. *)
Definition isspace (c : ascii) : bool :=
  let n := nat_of_ascii c in
  ((9 <=? n) && (n <=? 13) || (28 <=? n) && (n <=? 32)
   || (n =? 133) || (n =? 160))%nat.

Fixpoint lstrip (s : string) : string :=
  match s with
  | EmptyString => EmptyString
  | String c s' => if isspace c then lstrip s' else s
  end.

(** [s.rstrip()]: a character is kept when something non-blank follows it. *)
Fixpoint rstrip (s : string) : string :=
  match s with
  | EmptyString => EmptyString
  | String c s' =>
      match rstrip s' with
      | EmptyString => if isspace c then EmptyString else String c EmptyString
      | r => String c r
      end
  end.

(** [s.strip()] *)
Definition strip (s : string) : string := rstrip (lstrip s).

(** [s.split("\n")]: always at least one piece. *)
Fixpoint split_lines (s : string) : list string :=
  match s with
  | EmptyString => [EmptyString]
  | String c s' =>
      if Ascii.eqb c "010"%char then EmptyString :: split_lines s'
      else match split_lines s' with
           | [] => [String c EmptyString]
           | l :: ls => String c l :: ls
           end
  end.

(** [str(n)] for an integer. *)
Definition of_Z (n : Z) : string := NilZero.string_of_int (Z.to_int n).

(** ["\n" in s] *)
Fixpoint has_nl (s : string) : bool :=
  match s with
  | EmptyString => false
  | String c s' => Ascii.eqb c "010"%char || has_nl s'
  end.

(** [c.lower()] on the first 256 code points: the ASCII capitals and the
    Latin-1 capitals (all of 192..222 but the multiplication sign). *)
Definition lower_char (c : ascii) : ascii :=
  let n := nat_of_ascii c in
  (if (65 <=? n) && (n <=? 90) then ascii_of_nat (n + 32)
   else if (192 <=? n) && (n <=? 222) && negb (n =? 215) then ascii_of_nat (n + 32)
   else c)%nat.

(** [s.lower()] *)
Fixpoint lower (s : string) : string :=
  match s with
  | EmptyString => EmptyString
  | String c s' => String (lower_char c) (lower s')
  end.

(** ["".join(parts)] *)
Definition concat (parts : list string) : string := join EmptyString parts.

(** [t.startswith(s)], as a proposition. *)
Definition extends (s t : string) : Prop := ∃ ext, t = s +:+ ext.

End PyStr.

(** ** JSON values and [json.dumps] *)

Module Json.
Import PyStr.

(** A Python dict keeps insertion order, which [json.dumps] prints: an
    association list.  A float is carried by its [repr]. *)
Inductive json : Type :=
| JNull
| JBool (b : bool)
| JInt (n : Z)
| JFloat (repr : string)
| JStr (s : string)
| JArr (items : list json)
| JObj (fields : list (string * json)).

(** [d.get(k)] *)
Fixpoint lookup {V : Type} (k : string) (d : list (string * V)) : option V :=
  match d with
  | [] => None
  | (k', v) :: d' => if String.eqb k k' then Some v else lookup k d'
  end.

(** [d.get(k, dflt)] *)
Definition get {V : Type} (k : string) (dflt : V) (d : list (string * V)) : V :=
  default dflt (lookup k d).

Definition hex_digit (n : nat) : ascii :=
  (if n <? 10 then ascii_of_nat (48 + n) else ascii_of_nat (87 + n))%nat.

(** [\u00xx], as the encoder prints a code point below 256. *)
Definition uescape (c : ascii) : string :=
  let n := nat_of_ascii c in
  "\u00" +:+ String (hex_digit (n / 16)) (String (hex_digit (n mod 16)) EmptyString).

(** One character of a JSON string literal.  [ensure_ascii] only matters
    for code points outside the printable ASCII range. *)
Definition escape_char (ensure_ascii : bool) (c : ascii) : string :=
  let n := nat_of_ascii c in
  (if n =? 34 then "\" +:+ dq
   else if n =? 92 then "\\"
   else if n =? 10 then "\n"
   else if n =? 13 then "\r"
   else if n =? 9 then "\t"
   else if n =? 8 then "\b"
   else if n =? 12 then "\f"
   else if n <? 32 then uescape c
   else if ensure_ascii && (126 <? n) then uescape c
   else String c EmptyString)%nat.

Fixpoint escape (ensure_ascii : bool) (s : string) : string :=
  match s with
  | EmptyString => EmptyString
  | String c s' => escape_char ensure_ascii c +:+ escape ensure_ascii s'
  end.

Definition quote (ensure_ascii : bool) (s : string) : string :=
  dq +:+ escape ensure_ascii s +:+ dq.

(** [json.dumps(j, ensure_ascii=...)] with the default separators. *)
Fixpoint dumps (ensure_ascii : bool) (j : json) : string :=
  match j with
  | JNull => "null"
  | JBool true => "true"
  | JBool false => "false"
  | JInt n => of_Z n
  | JFloat r => r
  | JStr s => quote ensure_ascii s
  | JArr items => "[" +:+ join ", " (map (dumps ensure_ascii) items) +:+ "]"
  | JObj fields =>
      "{" +:+ join ", "
                (map (fun kv => quote ensure_ascii (fst kv) +:+ ": "
                                +:+ dumps ensure_ascii (snd kv)) fields)
          +:+ "}"
  end.

(** A value as [json.loads] or the SDK hands it over: the [repr] of a float
    is one line of text. *)
Fixpoint clean (j : json) : bool :=
  match j with
  | JFloat r => negb (has_nl r)
  | JArr items => forallb clean items
  | JObj fields => forallb (fun kv => clean (snd kv)) fields
  | _ => true
  end.

End Json.

(** ** agent_bridge.py *)

Module AgentBridge.
Import PyStr Json.

(** An OpenAI-format message: a dict read with [msg.get(key, "")]. *)
Definition message : Type := list (string * string).

Definition turn : Type := (string * string)%type.

(** Body of the [for msg in messages] loop of [build_prompt], on the pair
    [(system, history)]. *)
Definition scan_message (acc : string * list turn) (msg : message)
  : string * list turn :=
  let '(system, history) := acc in
  let role := get "role" "" msg in
  let content := get "content" "" msg in
  if String.eqb role "system" then (content, history)
  else if String.eqb role "user" then (system, history ++ [("User", content)])
  else if String.eqb role "assistant" && negb (String.eqb content "")
       then (system, history ++ [("Assistant", content)])
  else (system, history).

Definition scan_messages (messages : list message) : string * list turn :=
  fold_left scan_message messages ("", []).

Definition system_of (messages : list message) : string := fst (scan_messages messages).
Definition history_of (messages : list message) : list turn := snd (scan_messages messages).

Definition render_turn (t : turn) : string := fst t +:+ ": " +:+ snd t.

Definition build_prompt (messages : list message) : string * string :=
  let '(system, history) := scan_messages messages in
  match last history with
  | None => (system, "")
  | Some final =>
      if negb (String.eqb (fst final) "User") then (system, snd final)
      else if (length history =? 1)%nat then (system, snd final)
      else
        let context :=
          join (nl +:+ nl)
               (map render_turn (List.firstn (length history - 1) history)) in
        (system,
         "<conversation_history>" +:+ nl +:+ context +:+ nl
           +:+ "</conversation_history>" +:+ nl +:+ nl +:+ snd final)
  end.

Definition user_msg (text : string) : message := [("role", "user"); ("content", text)].
Definition assistant_msg (text : string) : message := [("role", "assistant"); ("content", text)].
Definition system_msg (text : string) : message := [("role", "system"); ("content", text)].

(** The turns one message contributes, read off its role and content. *)
Definition turns_of (msg : message) : list turn :=
  let role := get "role" "" msg in
  let content := get "content" "" msg in
  if decide (role = "user") then [("User", content)]
  else if decide (role = "assistant" ∧ content ≠ "") then [("Assistant", content)]
  else [].

(** *** The output channel

    [emit] and [emit_done] write whole lines to standard output.  A write is
    kept as the value it prints; [render] gives its text. *)
Inductive sse : Type :=
| Data (data : json)
| DoneLine.

Definition render (w : sse) : string :=
  match w with
  | Data data => "data: " +:+ dumps false data +:+ nl
  | DoneLine => "data: [DONE]" +:+ nl
  end.

Fixpoint stdout_text (out : list sse) : string :=
  match out with
  | [] => EmptyString
  | w :: out' => render w +:+ stdout_text out'
  end.

Definition emit (data : json) : list sse := [Data data].

Definition usage_event (prompt_tok comp_tok : Z) : json :=
  JObj [("choices", JArr []);
        ("usage", JObj [("prompt_tokens", JInt prompt_tok);
                        ("completion_tokens", JInt comp_tok);
                        ("total_tokens", JInt (prompt_tok + comp_tok))])].

Definition emit_done (prompt_tok comp_tok : Z) : list sse :=
  (if negb (prompt_tok =? 0) || negb (comp_tok =? 0)
   then emit (usage_event prompt_tok comp_tok) else [])
  ++ [DoneLine].

(** *** SDK messages *)

(** [block.input]: a dict, or anything else through its [str()]. *)
Inductive tool_input : Type :=
| InputDict (fields : list (string * json))
| InputOther (str : string).

Inductive block : Type :=
| TextBlock (text : string)
| ThinkingBlock (thinking : string)
| ToolUseBlock (id name : string) (input : tool_input)
| OtherBlock.

Inductive sdk_message : Type :=
| AssistantMessage (content : list block)
| ResultMessage (usage : option (list (string * Z)))
| OtherMessage.

(** How the asynchronous generator stops once its messages are consumed. *)
Inductive stream_end : Type :=
| Exhausted
| Raised (e : string).

Definition upstream : Type := (list sdk_message * stream_end)%type.

Record options : Type := ClaudeCodeOptions {
  system_prompt : option string;
  model : string;
  include_partial_messages : bool;
  cwd : string;
}.

(** *** Delta events *)

Definition delta_event (field : string) (value : json) : json :=
  JObj [("choices", JArr [JObj [("delta", JObj [(field, value)])]])].

Definition content_delta (s : string) : json := delta_event "content" (JStr s).
Definition reasoning_delta (s : string) : json := delta_event "reasoning" (JStr s).

Definition arguments_text (input : tool_input) : string :=
  match input with
  | InputDict fields => dumps true (JObj fields)
  | InputOther str => str
  end.

Definition tool_call (id name : string) (input : tool_input) : json :=
  JObj [("index", JInt 0);
        ("id", JStr id);
        ("type", JStr "function");
        ("function", JObj [("name", JStr name);
                           ("arguments", JStr (arguments_text input))])].

Definition tool_call_delta (id name : string) (input : tool_input) : json :=
  delta_event "tool_calls" (JArr [tool_call id name input]).

(** *** Delta tracking *)

Record tracking : Type := Tracking {
  text_lens : gmap nat nat;
  think_lens : gmap nat nat;
  seen_tools : gset nat;
  was_assistant : bool;
}.

Definition initial_tracking : tracking :=
  {| text_lens := ∅; think_lens := ∅; seen_tools := ∅; was_assistant := false |}.

(** [lens.get(i, 0)] *)
Definition emitted (lens : gmap nat nat) (i : nat) : nat := default 0%nat (lens !! i).

(** Body of [for i, block in enumerate(message.content)]. *)
Definition process_block (i : nat) (b : block) (st : tracking)
  : tracking * list sse :=
  match b with
  | TextBlock text =>
      let prev := emitted (text_lens st) i in
      if (prev <? len text)%nat
      then ({| text_lens := <[i := len text]> (text_lens st);
               think_lens := think_lens st;
               seen_tools := seen_tools st;
               was_assistant := was_assistant st |},
            emit (content_delta (drop prev text)))
      else (st, [])
  | ThinkingBlock thinking =>
      let prev := emitted (think_lens st) i in
      if (prev <? len thinking)%nat
      then ({| text_lens := text_lens st;
               think_lens := <[i := len thinking]> (think_lens st);
               seen_tools := seen_tools st;
               was_assistant := was_assistant st |},
            emit (reasoning_delta (drop prev thinking)))
      else (st, [])
  | ToolUseBlock id name input =>
      if decide (i ∈ seen_tools st) then (st, [])
      else ({| text_lens := text_lens st;
               think_lens := think_lens st;
               seen_tools := {[i]} ∪ seen_tools st;
               was_assistant := was_assistant st |},
            emit (tool_call_delta id name input))
  | OtherBlock => (st, [])
  end.

Fixpoint process_blocks (i : nat) (content : list block) (st : tracking)
  : tracking * list sse :=
  match content with
  | [] => (st, [])
  | b :: content' =>
      let '(st1, out1) := process_block i b st in
      let '(st2, out2) := process_blocks (S i) content' st1 in
      (st2, out1 ++ out2)
  end.

(** The tracking an assistant message is processed with: cleared when the
    previous message was not an assistant message. *)
Definition enter_assistant (st : tracking) : tracking :=
  if was_assistant st
  then st
  else {| text_lens := ∅; think_lens := ∅; seen_tools := ∅; was_assistant := true |}.

Definition usage_tokens (usage : option (list (string * Z))) : Z * Z :=
  match usage with
  | None | Some [] => (0, 0)
  | Some u => (get "input_tokens" 0 u, get "output_tokens" 0 u)
  end.

(** Body of [async for message in query(...)]; the flag says that the
    loop body returned from [main]. *)
Definition handle_message (message : sdk_message) (st : tracking)
  : tracking * list sse * bool :=
  match message with
  | AssistantMessage content =>
      let '(st', out) := process_blocks 0 content (enter_assistant st) in
      (st', out, false)
  | ResultMessage usage =>
      let st' := {| text_lens := text_lens st; think_lens := think_lens st;
                    seen_tools := seen_tools st; was_assistant := false |} in
      let '(inp, out) := usage_tokens usage in
      (st', emit_done inp out, true)
  | OtherMessage =>
      ({| text_lens := text_lens st; think_lens := think_lens st;
          seen_tools := seen_tools st; was_assistant := false |}, [], false)
  end.

Definition sdk_error (e : string) : json :=
  content_delta (nl +:+ "SDK Error: " +:+ e +:+ nl).

(** The [try] statement of [main] together with the final [emit_done()]. *)
Fixpoint consume (messages : list sdk_message) (ending : stream_end)
         (st : tracking) : list sse :=
  match messages with
  | [] =>
      match ending with
      | Exhausted => emit_done 0 0
      | Raised e => emit (sdk_error e) ++ emit_done 0 0
      end
  | message :: rest =>
      let '(st', out, returned) := handle_message message st in
      if returned then out else out ++ consume rest ending st'
  end.

(** The loop of [main] on a prefix of the stream: the tracking reached and
    what was written, up to a [return]. *)
Fixpoint feed (messages : list sdk_message) (st : tracking) : tracking * list sse :=
  match messages with
  | [] => (st, [])
  | message :: rest =>
      let '(st', out, returned) := handle_message message st in
      if returned then (st', out)
      else let '(st'', out') := feed rest st' in (st'', out ++ out')
  end.

(** *** Which block wrote which event

    The events carry no block position, so statements about "the delta of
    block [i]" read them off a trace that pairs every event with the index
    of the block whose processing wrote it. *)
Fixpoint trace_blocks (i : nat) (content : list block) (st : tracking)
  : tracking * list (nat * sse) :=
  match content with
  | [] => (st, [])
  | b :: content' =>
      let '(st1, out1) := process_block i b st in
      let '(st2, out2) := trace_blocks (S i) content' st1 in
      (st2, map (pair i) out1 ++ out2)
  end.

(** A run of consecutive assistant messages, given by their contents. *)
Fixpoint trace_run (run : list (list block)) (st : tracking)
  : tracking * list (nat * sse) :=
  match run with
  | [] => (st, [])
  | content :: run' =>
      let '(st1, out1) := trace_blocks 0 content (enter_assistant st) in
      let '(st2, out2) := trace_run run' st1 in
      (st2, out1 ++ out2)
  end.

(** [data["choices"][0]["delta"]["tool_calls"]] of a written event. *)
Definition tool_calls_of (w : sse) : option (list json) :=
  match w with
  | Data (JObj top) =>
      match lookup "choices" top with
      | Some (JArr (JObj choice :: _)) =>
          match lookup "delta" choice with
          | Some (JObj delta) =>
              match lookup "tool_calls" delta with
              | Some (JArr calls) => Some calls
              | _ => None
              end
          | _ => None
          end
      | _ => None
      end
  | _ => None
  end.

Definition is_tool_call (w : sse) : bool :=
  match tool_calls_of w with
  | Some _ => true
  | None => false
  end.

(** The tool-call deltas that the blocks at position [i] wrote. *)
Definition tool_deltas_at (i : nat) (tr : list (nat * sse)) : list sse :=
  map snd (filter (fun e => fst e = i ∧ is_tool_call (snd e) = true) tr).

(** [call["index"]] *)
Definition call_index (call : json) : option json :=
  match call with
  | JObj fields => lookup "index" fields
  | _ => None
  end.

(** Every tool call announced by [w] has [0] in its [index] field. *)
Definition index_zero (w : sse) : Prop :=
  ∀ calls, tool_calls_of w = Some calls →
           Forall (fun call => call_index call = Some (JInt 0)) calls.

(** Block [b] at position [i] has nothing new for tracking [st]. *)
Definition settled (i : nat) (b : block) (st : tracking) : Prop :=
  match b with
  | TextBlock text => (len text ≤ emitted (text_lens st) i)%nat
  | ThinkingBlock thinking => (len thinking ≤ emitted (think_lens st) i)%nat
  | ToolUseBlock _ _ _ => i ∈ seen_tools st
  | OtherBlock => True
  end.

(** The order on trackings inside one run of assistant messages. *)
Definition grows (st st' : tracking) : Prop :=
  (∀ i, emitted (text_lens st) i ≤ emitted (text_lens st') i)%nat
  ∧ (∀ i, emitted (think_lens st) i ≤ emitted (think_lens st') i)%nat
  ∧ seen_tools st ⊆ seen_tools st'
  ∧ was_assistant st' = was_assistant st.

(** A tool-invocation block occupies position [i] of the content. *)
Definition tool_at (i : nat) (content : list block) : Prop :=
  ∃ id name input, content !! i = Some (ToolUseBlock id name input).

(** Partial messages as the SDK delivers them: the text first, then the
    tool block with no arguments yet, then with its arguments. *)
Definition partial_tool_run : list (list block) :=
  [[TextBlock "Let me look"];
   [TextBlock "Let me look"; ToolUseBlock "toolu_1" "read" (InputDict [])];
   [TextBlock "Let me look";
    ToolUseBlock "toolu_1" "read" (InputDict [("path", JStr "/dash/x")])]].

(** [model.split("/", 1)[1]] when ["/" in model] *)
Fixpoint after_slash (s : string) : option string :=
  match s with
  | EmptyString => None
  | String c s' => if Ascii.eqb c "/"%char then Some s' else after_slash s'
  end.

Record payload : Type := Payload {
  payload_model : option string;
  payload_messages : list message;
}.

Section Main.
(** The SDK call [query(prompt=..., options=...)]. *)
Variable query : string -> options -> upstream.

Definition main (p : payload) : list sse :=
  let model := default "claude-opus-4-6" (payload_model p) in
  let model := default model (after_slash model) in
  let '(system, prompt) := build_prompt (payload_messages p) in
  if String.eqb prompt ""
  then emit (content_delta "Error: No user message") ++ emit_done 0 0
  else
    let opts := {| system_prompt := if String.eqb system "" then None else Some system;
                   model := model;
                   include_partial_messages := true;
                   cwd := "/dash" |} in
    let '(messages, ending) := query prompt opts in
    consume messages ending initial_tracking.
End Main.

(** [data["choices"][0]["delta"]["content"]] of a written event. *)
Definition content_of (w : sse) : option string :=
  match w with
  | Data (JObj top) =>
      match lookup "choices" top with
      | Some (JArr (JObj choice :: _)) =>
          match lookup "delta" choice with
          | Some (JObj delta) =>
              match lookup "content" delta with
              | Some (JStr s) => Some s
              | _ => None
              end
          | _ => None
          end
      | _ => None
      end
  | _ => None
  end.

(** The content deltas that the blocks at position [i] wrote, in order. *)
Definition content_deltas_at (i : nat) (tr : list (nat * sse)) : list string :=
  omap (fun e => if decide (fst e = i) then content_of (snd e) else None) tr.

(** [data["choices"][0]["delta"]["reasoning"]] of a written event. *)
Definition reasoning_of (w : sse) : option string :=
  match w with
  | Data (JObj top) =>
      match lookup "choices" top with
      | Some (JArr (JObj choice :: _)) =>
          match lookup "delta" choice with
          | Some (JObj delta) =>
              match lookup "reasoning" delta with
              | Some (JStr s) => Some s
              | _ => None
              end
          | _ => None
          end
      | _ => None
      end
  | _ => None
  end.

(** The reasoning deltas that the blocks at position [i] wrote, in order. *)
Definition reasoning_deltas_at (i : nat) (tr : list (nat * sse)) : list string :=
  omap (fun e => if decide (fst e = i) then reasoning_of (snd e) else None) tr.

(** Successive full texts of one block, as partial messages deliver them:
    each one continues the one before. *)
Fixpoint growing (prev : string) (texts : list string) : Prop :=
  match texts with
  | [] => True
  | t :: texts' => extends prev t ∧ growing t texts'
  end.

(** [isinstance(message, ResultMessage)] *)
Definition is_result (message : sdk_message) : bool :=
  match message with
  | ResultMessage _ => true
  | _ => false
  end.

(** The line a write puts on standard output, without its line feed. *)
Definition line_of (w : sse) : string :=
  match w with
  | Data data => "data: " +:+ dumps false data
  | DoneLine => "data: [DONE]"
  end.

(** Text blocks and thinking blocks are diffed alike, each against its own
    table and written under its own delta field. *)
Definition text_block (thinking : bool) (text : string) : block :=
  if thinking then ThinkingBlock text else TextBlock text.

Definition lens_of (thinking : bool) (st : tracking) : gmap nat nat :=
  if thinking then think_lens st else text_lens st.

Definition deltas_at (thinking : bool) (i : nat) (tr : list (nat * sse)) : list string :=
  if thinking then reasoning_deltas_at i tr else content_deltas_at i tr.

(** The five kinds of line the bridge writes. *)
Definition wire_event (w : sse) : Prop :=
  w = DoneLine
  ∨ (∃ s, w = Data (content_delta s))
  ∨ (∃ s, w = Data (reasoning_delta s))
  ∨ (∃ id name input, w = Data (tool_call_delta id name input))
  ∨ (∃ prompt_tok comp_tok, w = Data (usage_event prompt_tok comp_tok)).

End AgentBridge.

(** ** agent.py *)

Module Agent.
Import PyStr Json.

(** What a Python call does: it returns, or an exception leaves it. *)
Inductive exn : Type :=
| TypeError
| AttributeError
| OSError (e : string).

Inductive result (A : Type) : Type :=
| Ret (a : A)
| Exc (e : exn).
Arguments Ret {A} a.
Arguments Exc {A} e.

Definition bind {A B : Type} (r : result A) (k : A -> result B) : result B :=
  match r with
  | Ret a => k a
  | Exc e => Exc e
  end.

Notation "x <- r ;; k" := (bind r (fun x => k))
  (at level 100, r at next level, right associativity).

(** [subprocess.run(..., timeout=60)]: the process ends in time with its
    captured output, the timeout expires, or the call fails otherwise. *)
Inductive proc_outcome : Type :=
| Completed (stdout stderr : string)
| TimeoutExpired
| ProcFailed (e : string).

Definition init_req : json :=
  JObj [("jsonrpc", JStr "2.0"); ("method", JStr "initialize");
        ("params", JObj []); ("id", JInt 0)].

Definition call_req (name : string) (args : list (string * json)) : json :=
  JObj [("jsonrpc", JStr "2.0"); ("method", JStr "tools/call");
        ("params", JObj [("name", JStr name); ("arguments", JObj args)]);
        ("id", JInt 1)].

Definition rpc_payload (name : string) (args : list (string * json)) : string :=
  dumps true init_req +:+ nl +:+ dumps true (call_req name args) +:+ nl.

(** [[l for l in stdout.strip().split("\n") if l.strip()]] *)
Definition response_lines (stdout : string) : list string :=
  filter (fun l => strip l ≠ "") (split_lines (strip stdout)).

Definition error_payload (msg key detail : string) : string :=
  dumps true (JObj [("error", JStr msg); (key, JStr detail)]).

(** [item.get("type") == "text"] *)
Definition is_text_item (fields : list (string * json)) : bool :=
  match lookup "type" fields with
  | Some (JStr s) => String.eqb s "text"
  | _ => false
  end.

(** [item.get("text", "")] *)
Definition text_field (fields : list (string * json)) : json :=
  get "text" (JStr "") fields.

(** One element of the iterated [content]; only a dict has [get]. *)
Definition item_text (item : json) : result (option json) :=
  match item with
  | JObj fields =>
      if is_text_item fields then Ret (Some (text_field fields)) else Ret None
  | _ => Exc AttributeError
  end.

Fixpoint collect_texts (items : list json) : result (list json) :=
  match items with
  | [] => Ret []
  | item :: items' =>
      t <- item_text item ;;
      ts <- collect_texts items' ;;
      Ret (match t with Some x => x :: ts | None => ts end)
  end.

(** What [for item in content] ranges over. *)
Definition iterate (content : json) : result (list json) :=
  match content with
  | JArr items => Ret items
  | JObj fields => Ret (map (fun kv => JStr (fst kv)) fields)
  | JStr s => Ret (map (fun c => JStr (String c EmptyString)) (String.list_ascii_of_string s))
  | _ => Exc TypeError
  end.

(** ["\n".join(texts)]: every element has to be a [str]. *)
Fixpoint as_strings (texts : list json) : result (list string) :=
  match texts with
  | [] => Ret []
  | JStr s :: texts' => ss <- as_strings texts' ;; Ret (s :: ss)
  | _ :: _ => Exc TypeError
  end.

(** Lines 227-231: the text of a tool result. *)
Definition extract_text (resp : list (string * json)) : result string :=
  match get "result" (JObj []) resp with
  | JObj result =>
      items <- iterate (get "content" (JArr []) result) ;;
      texts <- collect_texts items ;;
      match texts with
      | [] => Ret (dumps true (JObj result))
      | _ => ss <- as_strings texts ;; Ret (join nl ss)
      end
  | _ => Exc AttributeError
  end.

(** [resp = json.loads(lines[1])] onwards, for each kind of parsed value. *)
Definition read_response (resp : json) : result string :=
  match resp with
  | JObj fields =>
      match lookup "error" fields with
      | Some err => Ret (dumps true err)
      | None => extract_text fields
      end
  | JArr items =>
      if existsb (fun x => match x with JStr "error" => true | _ => false end) items
      then Exc TypeError else Exc AttributeError
  | JStr s =>
      match String.index 0 "error" s with
      | Some _ => Exc TypeError
      | None => Exc AttributeError
      end
  | _ => Exc TypeError
  end.

(** What ends one trip through the code of a user turn. *)
Inductive ended (A : Type) : Type :=
| Done (a : A)
| Crashed (e : exn)
| OutOfFuel.
Arguments Done {A} a.
Arguments Crashed {A} e.
Arguments OutOfFuel {A}.

(** A well-formed exchange with dashmcp, used to run the relay on. *)
Definition sample_result : list (string * json) :=
  [("content", JArr [JObj [("type", JStr "text"); ("text", JStr "3 tasks")];
                     JObj [("type", JStr "image"); ("data", JStr "AAAA")];
                     JObj [("type", JStr "text"); ("text", JStr "1 blocked")]])].

Definition sample_response : list (string * json) :=
  [("jsonrpc", JStr "2.0"); ("id", JInt 1); ("result", JObj sample_result)].

Definition sample_stdout : string :=
  dumps true (JObj [("jsonrpc", JStr "2.0"); ("id", JInt 0); ("result", JObj [])])
  +:+ nl +:+ dumps true (JObj sample_response) +:+ nl.

Definition sample_loads (line : string) : option json :=
  if String.eqb line (dumps true (JObj sample_response))
  then Some (JObj sample_response) else None.

Section Tools.
(** The dashmcp subprocess on a given standard input, and [json.loads]
    ([None] for [JSONDecodeError]). *)
Variable subprocess_run : string -> proc_outcome.
Variable json_loads : string -> option json.

Definition run_tool (name : string) (args : list (string * json)) : result string :=
  let payload := rpc_payload name args in
  match subprocess_run payload with
  | TimeoutExpired =>
      Ret (dumps true (JObj [("error", JStr "Tool call timed out after 60s")]))
  | ProcFailed e => Exc (OSError e)
  | Completed stdout stderr =>
      match response_lines stdout with
      | _ :: line1 :: _ =>
          match json_loads line1 with
          | None => Ret (error_payload "Invalid JSON from dashmcp" "raw" (take 500 line1))
          | Some resp => read_response resp
          end
      | _ => Ret (error_payload "No response from dashmcp" "stderr" (take 500 stderr))
      end
  end.

(** [format_tool_call] *)
Definition format_tool_call (name : string) (args : list (string * json)) : string :=
  let args_str := dumps false (JObj args) in
  let args_str := if (120 <? len args_str)%nat
                  then take 117 args_str +:+ "..." else args_str in
  "  [TOOL] " +:+ name +:+ "(" +:+ args_str +:+ ")".

(** *** The conversation *)

Inductive api_block : Type :=
| TextB (text : string)
| ToolUseB (id name : string) (input : list (string * json))
| OtherB (type : string) (text : option string).

(** [b.type == "tool_use"] *)
Definition is_tool_use (b : api_block) : bool :=
  match b with
  | ToolUseB _ _ _ => true
  | _ => false
  end.

(** [b.text] when [hasattr(b, "text")] *)
Definition block_text (b : api_block) : option string :=
  match b with
  | TextB text => Some text
  | ToolUseB _ _ _ => None
  | OtherB _ text => text
  end.

Record tool_result : Type := ToolResult {
  tool_use_id : string;
  tool_content : string;
}.

Inductive turn_content : Type :=
| UserText (s : string)
| Blocks (bs : list api_block)
| ToolResults (rs : list tool_result).

Record chat_message : Type := ChatMessage {
  role : string;
  content : turn_content;
}.

Record response : Type := Response {
  response_content : list api_block;
  stop_reason : string;
}.

Inductive api_outcome : Type :=
| ApiOk (r : response)
| APIError (e : string).

(** The interpreter state a turn works on: the [messages] list and what
    [print] has written so far. *)
Record session : Type := Session {
  messages : list chat_message;
  printed : list string;
}.

Definition append (m : chat_message) (s : session) : session :=
  {| messages := messages s ++ [m]; printed := printed s |}.

(** [messages.pop()] *)
Definition pop (s : session) : session :=
  {| messages := removelast (messages s); printed := printed s |}.

Definition print (line : string) (s : session) : session :=
  {| messages := messages s; printed := printed s ++ [line] |}.

(** [for block in tool_blocks]: print the call, run it, collect the result. *)
Fixpoint run_tools (tool_blocks : list api_block) (s : session)
  : result (list tool_result * session) :=
  match tool_blocks with
  | [] => Ret ([], s)
  | ToolUseB id name input :: rest =>
      let s1 := print (format_tool_call name input) s in
      r <- run_tool name input ;;
      rest' <- run_tools rest s1 ;;
      Ret ({| tool_use_id := id; tool_content := r |} :: fst rest', snd rest')
  | _ :: rest => run_tools rest s
  end.

Definition user_turn (user_input : string) : chat_message :=
  {| role := "user"; content := UserText user_input |}.

Definition assistant_turn (resp : response) : chat_message :=
  {| role := "assistant"; content := Blocks (response_content resp) |}.

Definition tool_result_turn (tool_results : list tool_result) : chat_message :=
  {| role := "user"; content := ToolResults tool_results |}.

(** Two responses and two scripted APIs, used to run a turn on. *)
Definition empty_session : session := {| messages := []; printed := [] |}.

Definition sample_tool_response : response :=
  {| response_content := [TextB "Let me check."; ToolUseB "toolu_1" "tasks" []];
     stop_reason := "tool_use" |}.

Definition sample_silent_response : response :=
  {| response_content := [OtherB "thinking" None]; stop_reason := "end_turn" |}.

(** Answers the first call of a turn with a tool request, fails afterwards. *)
Definition failing_followup (history : list chat_message) : api_outcome :=
  match history with
  | [_] => ApiOk sample_tool_response
  | _ => APIError "overloaded"
  end.

Definition silent_api (history : list chat_message) : api_outcome :=
  ApiOk sample_silent_response.

Section Chat.
(** [client.messages.create(...)]: model, system prompt, tools and output cap
    are fixed for the session, the history is what changes. *)
Variable create : list chat_message -> api_outcome.

Definition api_error_line (e : string) : string := "  [ERROR] API: " +:+ e.

(** [while response.stop_reason == "tool_use"]; returns the value of
    [response] when the loop is left, by its test or by [break]. *)
Fixpoint tool_loop (fuel : nat) (resp : response) (s : session)
  : ended (response * session) :=
  if String.eqb (stop_reason resp) "tool_use" then
    match fuel with
    | O => OutOfFuel
    | S fuel' =>
        let tool_blocks := filter (fun b => is_tool_use b = true) (response_content resp) in
        let s1 := append (assistant_turn resp) s in
        match run_tools tool_blocks s1 with
        | Exc e => Crashed e
        | Ret (tool_results, s2) =>
            let s3 := append (tool_result_turn tool_results) s2 in
            match create (messages s3) with
            | APIError e => Done (resp, print (api_error_line e) s3)
            | ApiOk resp' => tool_loop fuel' resp' s3
            end
        end
    end
  else Done (resp, s).

(** Lines 330-334: print the text of the response and record it. *)
Definition print_text_response (resp : response) (s : session) : session :=
  let text_parts := omap block_text (response_content resp) in
  match text_parts with
  | [] => s
  | _ =>
      print (nl +:+ join nl text_parts +:+ nl) (append (assistant_turn resp) s)
  end.

(** One user turn: from [messages.append] of the user line to the end of
    the body of [while True]. *)
Definition chat_turn (fuel : nat) (user_input : string) (s : session) : ended session :=
  let s1 := append (user_turn user_input) s in
  match create (messages s1) with
  | APIError e => Done (pop (print (api_error_line e) s1))
  | ApiOk resp =>
      match tool_loop fuel resp s1 with
      | Done (resp', s2) => Done (print_text_response resp' s2)
      | Crashed e => Crashed e
      | OutOfFuel => OutOfFuel
      end
  end.

(** What [input("> ")] gives: a line, or [EOFError] / [KeyboardInterrupt]. *)
Inductive console : Type :=
| Line (user_input : string)
| EndOfInput.

Definition farewell : string := "Hejd" +:+ String "229"%char "!".

(** [user_input.strip().lower() in ("quit", "exit", "q")] *)
Definition is_quit (user_input : string) : bool :=
  let w := lower (strip user_input) in
  String.eqb w "quit" || String.eqb w "exit" || String.eqb w "q".

(** One pass through the body of [while True]; the flag tells whether the
    loop goes on.  Only [print] calls are recorded, not the prompt. *)
Definition chat_step (fuel : nat) (inp : console) (s : session)
  : ended (bool * session) :=
  match inp with
  | EndOfInput => Done (false, print (nl +:+ farewell) s)
  | Line user_input =>
      if is_quit user_input then Done (false, print farewell s)
      else if String.eqb (strip user_input) "" then Done (true, s)
      else match chat_turn fuel user_input s with
           | Done s' => Done (true, s')
           | Crashed e => Crashed e
           | OutOfFuel => OutOfFuel
           end
  end.

(** The [while True] loop of [chat] on the inputs the console delivers;
    [fuel] bounds the tool rounds of each turn. *)
Fixpoint chat_loop (fuel : nat) (inputs : list console) (s : session)
  : ended session :=
  match inputs with
  | [] => Done s
  | inp :: rest =>
      match chat_step fuel inp s with
      | Done (true, s') => chat_loop fuel rest s'
      | Done (false, s') => Done s'
      | Crashed e => Crashed e
      | OutOfFuel => OutOfFuel
      end
  end.

End Chat.
End Tools.

End Agent.

(** ** agent_bridge.py on whatever [json.load] hands it

    [AgentBridge.main] takes the payload in the shape the caller sends it.
    Here the payload is any parsed JSON value, and the statements before the
    [try] can raise: [payload.get] on a value that is not a dict, ["/" in
    model] on a value that is not a container, iterating [messages],
    [msg.get] on an element that is not a dict.  Nothing has been written
    when they do. *)

Module BridgeStdin.
Import PyStr Json AgentBridge Agent.

(** [bool(v)] *)
Definition truthy (v : json) : bool :=
  match v with
  | JNull => false
  | JBool b => b
  | JInt n => negb (n =? 0)
  | JFloat r => negb (String.eqb r "0.0" || String.eqb r "-0.0")
  | JStr s => negb (String.eqb s "")
  | JArr items => match items with [] => false | _ => true end
  | JObj fields => match fields with [] => false | _ => true end
  end.

(** [v == s] for a [str] [s] *)
Definition is_str (s : string) (v : json) : bool :=
  match v with
  | JStr t => String.eqb t s
  | _ => false
  end.

(** [ClaudeCodeOptions] holding whatever values the payload gave. *)
Record raw_options : Type := RawOptions {
  raw_system_prompt : option json;
  raw_model : json;
  raw_include_partial_messages : bool;
  raw_cwd : string;
}.

Definition raw_turn : Type := (string * json)%type.

(** [msg.get(key, "")]; only a dict has [get]. *)
Definition msg_get (key : string) (msg : json) : result json :=
  match msg with
  | JObj fields => Ret (get key (JStr "") fields)
  | _ => Exc AttributeError
  end.

(** Body of the [for msg in messages] loop of [build_prompt]. *)
Definition scan_value (acc : json * list raw_turn) (msg : json)
  : result (json * list raw_turn) :=
  let '(system, history) := acc in
  role <- msg_get "role" msg ;;
  content <- msg_get "content" msg ;;
  Ret (if is_str "system" role then (content, history)
       else if is_str "user" role then (system, history ++ [("User", content)])
       else if is_str "assistant" role && truthy content
            then (system, history ++ [("Assistant", content)])
       else (system, history)).

Fixpoint scan_values (msgs : list json) (acc : json * list raw_turn)
  : result (json * list raw_turn) :=
  match msgs with
  | [] => Ret acc
  | msg :: rest => acc' <- scan_value acc msg ;; scan_values rest acc'
  end.

(** ["/" in model] and [model.split("/", 1)[1]], for each kind of value. *)
Definition strip_provider (model : json) : result json :=
  match model with
  | JStr s => Ret (JStr (default s (after_slash s)))
  | JArr items => if existsb (is_str "/") items then Exc AttributeError else Ret model
  | JObj fields =>
      match lookup "/" fields with
      | Some _ => Exc AttributeError
      | None => Ret model
      end
  | _ => Exc TypeError
  end.

Section Stdin.
(** [str(v)] of a value that is not a [str], as an f-string formats it. *)
Variable py_str : json → string.
(** The SDK call [query(prompt=..., options=...)]. *)
Variable query : json → raw_options → upstream.

Definition str_of (v : json) : string :=
  match v with
  | JStr s => s
  | _ => py_str v
  end.

Definition render_value (t : raw_turn) : string := fst t +:+ ": " +:+ str_of (snd t).

(** [build_prompt(messages)] *)
Definition build_prompt_value (messages : json) : result (json * json) :=
  msgs <- iterate messages ;;
  acc <- scan_values msgs (JStr "", []) ;;
  let '(system, history) := acc in
  match last history with
  | None => Ret (system, JStr "")
  | Some final =>
      if negb (String.eqb (fst final) "User") then Ret (system, snd final)
      else if (length history =? 1)%nat then Ret (system, snd final)
      else
        let context :=
          join (nl +:+ nl)
               (map render_value (List.firstn (length history - 1) history)) in
        Ret (system,
             JStr ("<conversation_history>" +:+ nl +:+ context +:+ nl
                     +:+ "</conversation_history>" +:+ nl +:+ nl
                     +:+ str_of (snd final)))
  end.

(** [main()] from [payload = json.load(sys.stdin)] on. *)
Definition main_stdin (payload : json) : result (list sse) :=
  match payload with
  | JObj fields =>
      model <- strip_provider (get "model" (JStr "claude-opus-4-6") fields) ;;
      built <- build_prompt_value (get "messages" (JArr []) fields) ;;
      let '(system, prompt) := built in
      if negb (truthy prompt)
      then Ret (emit (content_delta "Error: No user message") ++ emit_done 0 0)
      else
        let opts := {| raw_system_prompt := if truthy system then Some system else None;
                       raw_model := model;
                       raw_include_partial_messages := true;
                       raw_cwd := "/dash" |} in
        let '(messages, ending) := query prompt opts in
        Ret (consume messages ending initial_tracking)
  | _ => Exc AttributeError
  end.

End Stdin.

Definition is_object (v : json) : bool :=
  match v with
  | JObj _ => true
  | _ => false
  end.

(** The payload the caller is meant to send: an object whose [model], when
    present, is a string and whose [messages], when present, is an array of
    objects. *)
Definition well_formed (payload : json) : bool :=
  match payload with
  | JObj fields =>
      match lookup "model" fields with
      | None | Some (JStr _) => true
      | Some _ => false
      end
      && match lookup "messages" fields with
         | None => true
         | Some (JArr msgs) => forallb is_object msgs
         | Some _ => false
         end
  | _ => false
  end.

(** The JSON a payload of [AgentBridge] stands for. *)
Definition message_json (msg : message) : json :=
  JObj (map (fun kv => (fst kv, JStr (snd kv))) msg).

Definition payload_json (p : payload) : json :=
  JObj (match payload_model p with
        | Some m => [("model", JStr m)]
        | None => []
        end
        ++ [("messages", JArr (map message_json (payload_messages p)))]).

Definition options_raw (opts : options) : raw_options :=
  {| raw_system_prompt := JStr <$> system_prompt opts;
     raw_model := JStr (model opts);
     raw_include_partial_messages := include_partial_messages opts;
     raw_cwd := cwd opts |}.

(** A payload on which [main] raises before its [try]. *)
Definition null_model_payload : json :=
  JObj [("model", JNull);
        ("messages", JArr [JObj [("role", JStr "user"); ("content", JStr "hi")]])].

End BridgeStdin.

Import PyStr Json.

(** ** The wire format *)

Example dumps_sample :
  dumps true (JObj [("a", JArr [JInt 1; JInt (-20); JNull]); ("b", JStr "x")])
  = "{" +:+ dq +:+ "a" +:+ dq +:+ ": [1, -20, null], "
        +:+ dq +:+ "b" +:+ dq +:+ ": " +:+ dq +:+ "x" +:+ dq +:+ "}".
Proof. reflexivity. Qed.

Example escape_sample :
  dumps true (JStr (String "233"%char ("t" +:+ nl)))
  = dq +:+ "\u00e9t\n" +:+ dq
  ∧ dumps false (JStr (String "233"%char ("t" +:+ nl)))
    = dq +:+ String "233"%char "t\n" +:+ dq.
Proof. split; reflexivity. Qed.

Example response_lines_sample :
  Agent.response_lines (nl +:+ "  " +:+ nl +:+ "a " +:+ nl +:+ " " +:+ nl +:+ "b " +:+ nl)
  = ["a "; "b"].
Proof. reflexivity. Qed.

Example run_tool_no_response :
  Agent.run_tool (fun _ => Agent.Completed ("only one line" +:+ nl) "boom")
                 Agent.sample_loads "tasks" []
  = Agent.Ret ("{" +:+ dq +:+ "error" +:+ dq +:+ ": " +:+ dq
                   +:+ "No response from dashmcp" +:+ dq +:+ ", "
                   +:+ dq +:+ "stderr" +:+ dq +:+ ": " +:+ dq +:+ "boom" +:+ dq +:+ "}").
Proof. reflexivity. Qed.

Example main_sample :
  AgentBridge.stdout_text
    (AgentBridge.main
       (fun _ _ => ([AgentBridge.AssistantMessage [AgentBridge.TextBlock "Hi"];
                     AgentBridge.ResultMessage (Some [("input_tokens", 3); ("output_tokens", 1)]);
                     AgentBridge.AssistantMessage [AgentBridge.TextBlock "never read"]],
                    AgentBridge.Exhausted))
       {| AgentBridge.payload_model := Some "acme/claude-x";
          AgentBridge.payload_messages := [AgentBridge.user_msg "hello"] |})
  = "data: {" +:+ dq +:+ "choices" +:+ dq +:+ ": [{" +:+ dq +:+ "delta" +:+ dq +:+ ": {"
      +:+ dq +:+ "content" +:+ dq +:+ ": " +:+ dq +:+ "Hi" +:+ dq +:+ "}}]}" +:+ nl
      +:+ "data: {" +:+ dq +:+ "choices" +:+ dq +:+ ": [], " +:+ dq +:+ "usage" +:+ dq
      +:+ ": {" +:+ dq +:+ "prompt_tokens" +:+ dq +:+ ": 3, "
      +:+ dq +:+ "completion_tokens" +:+ dq +:+ ": 1, "
      +:+ dq +:+ "total_tokens" +:+ dq +:+ ": 4}}" +:+ nl
      +:+ "data: [DONE]" +:+ nl.
Proof. reflexivity. Qed.

Example main_without_user_message :
  AgentBridge.main (fun _ _ => ([], AgentBridge.Exhausted))
    {| AgentBridge.payload_model := None;
       AgentBridge.payload_messages := [AgentBridge.system_msg "be brief"] |}
  = [AgentBridge.Data (AgentBridge.content_delta "Error: No user message");
     AgentBridge.DoneLine].
Proof. reflexivity. Qed.

(** ** The prompt builder *)

Section BuildPrompt.
Import AgentBridge.

Lemma eqb_decide (a b : string) : String.eqb a b = bool_decide (a = b).
Proof.
  destruct (String.eqb_spec a b) as [->|Hne].
  - by rewrite bool_decide_eq_true_2.
  - by rewrite bool_decide_eq_false_2.
Qed.

Lemma scan_message_history system history msg :
  snd (scan_message (system, history) msg) = history ++ turns_of msg.
Proof.
  unfold scan_message, turns_of. rewrite !eqb_decide.
  destruct (decide (get "role" "" msg = "system")) as [Hs|Hs].
  { rewrite bool_decide_eq_true_2 by done. rewrite Hs. simpl. by rewrite app_nil_r. }
  rewrite (bool_decide_eq_false_2 _ Hs).
  destruct (decide (get "role" "" msg = "user")) as [Hu|Hu].
  { by rewrite bool_decide_eq_true_2 by done. }
  rewrite (bool_decide_eq_false_2 _ Hu).
  destruct (decide (get "role" "" msg = "assistant")) as [Ha|Ha].
  - rewrite (bool_decide_eq_true_2 _ Ha).
    destruct (decide (get "content" "" msg = "")) as [Hc|Hc].
    + rewrite (bool_decide_eq_true_2 _ Hc). simpl.
      rewrite decide_False by tauto. by rewrite app_nil_r.
    + rewrite (bool_decide_eq_false_2 _ Hc). simpl.
      by rewrite decide_True by tauto.
  - rewrite (bool_decide_eq_false_2 _ Ha). simpl.
    rewrite decide_False by tauto. by rewrite app_nil_r.
Qed.

Lemma fold_scan_history msgs system history :
  snd (fold_left scan_message msgs (system, history))
  = history ++ flat_map turns_of msgs.
Proof.
  revert system history.
  induction msgs as [|msg msgs IH]; intros system history; cbn [fold_left flat_map].
  - by rewrite app_nil_r.
  - destruct (scan_message (system, history) msg) as [system' history'] eqn:E.
    rewrite IH. pose proof (scan_message_history system history msg) as H.
    rewrite E in H. simpl in H. by rewrite H, <- app_assoc.
Qed.

(** C7, as the spec words it, fails: a message that is not a system message
    need not become a turn.  An assistant message with empty content is
    skipped by the loop, so the history built from it alone is empty. *)
Lemma empty_assistant_message_forms_no_turn :
  ¬ (∀ (msgs : list message) (msg : message),
        msg ∈ msgs → get "role" "" msg ≠ "system" →
        ∃ t, t ∈ history_of msgs ∧ snd t = get "content" "" msg).
Proof.
  intros H.
  destruct (H [assistant_msg ""] (assistant_msg "")) as (t & Ht & _).
  - apply list_elem_of_singleton. reflexivity.
  - vm_compute. discriminate.
  - vm_compute in Ht. inversion Ht.
Qed.

(** C7, amended: the history built by [build_prompt] consists, in message
    order, of one [User] turn per message of role [user] and one [Assistant]
    turn per message of role [assistant] whose content is not empty; no other
    message (system, empty assistant, any other role) contributes a turn. *)
Theorem history_is_user_and_nonempty_assistant_turns (msgs : list message) :
  history_of msgs = flat_map turns_of msgs
  ∧ (∀ msg, msg ∈ msgs → get "role" "" msg = "user" →
       ("User", get "content" "" msg) ∈ history_of msgs)
  ∧ (∀ msg, msg ∈ msgs → get "role" "" msg = "assistant" →
       get "content" "" msg ≠ "" →
       ("Assistant", get "content" "" msg) ∈ history_of msgs)
  ∧ (∀ t, t ∈ history_of msgs →
       ∃ msg, msg ∈ msgs
              ∧ (get "role" "" msg = "user"
                 ∨ get "role" "" msg = "assistant" ∧ get "content" "" msg ≠ "")
              ∧ snd t = get "content" "" msg).
Proof.
  assert (Hh : history_of msgs = flat_map turns_of msgs).
  { unfold history_of, scan_messages. by rewrite fold_scan_history. }
  split; [exact Hh|]. rewrite Hh.
  split; [|split].
  - intros msg Hin Hrole. apply list_elem_of_In, in_flat_map.
    exists msg. split; [by apply list_elem_of_In|].
    unfold turns_of. rewrite decide_True by done. by left.
  - intros msg Hin Hrole Hcontent. apply list_elem_of_In, in_flat_map.
    exists msg. split; [by apply list_elem_of_In|].
    unfold turns_of. rewrite Hrole. rewrite decide_False by done.
    rewrite decide_True by done. by left.
  - intros t Ht. apply list_elem_of_In, in_flat_map in Ht.
    destruct Ht as (msg & Hin & Ht). exists msg.
    split; [by apply list_elem_of_In|].
    unfold turns_of in Ht. repeat case_decide; simpl in Ht.
    + destruct Ht as [<-|[]]. auto.
    + destruct Ht as [<-|[]]. auto.
    + destruct Ht.
Qed.

Lemma history_turns_witness :
  ("Assistant", "b") ∈ history_of [user_msg "a"; assistant_msg "b"; assistant_msg ""].
Proof.
  apply (proj1 (proj2 (proj2
           (history_is_user_and_nonempty_assistant_turns
              [user_msg "a"; assistant_msg "b"; assistant_msg ""])))
           (assistant_msg "b")).
  - apply list_elem_of_In. vm_compute. tauto.
  - reflexivity.
  - vm_compute. discriminate.
Defined.

(** C2: the three cases of [build_prompt].  A single user message ["hello"]
    gives [("", "hello")]; when the last turn of the history is not a
    [User] turn its content is the prompt; and user a, assistant b, user c
    gives the history block with the lines [User: a] and [Assistant: b]
    followed by [c]. *)
Theorem build_prompt_cases (msgs : list message) (final : turn)
    (Hlast : last (history_of msgs) = Some final)
    (Hrole : fst final ≠ "User") :
  build_prompt [user_msg "hello"] = ("", "hello")
  ∧ build_prompt msgs = (system_of msgs, snd final)
  ∧ build_prompt [user_msg "a"; assistant_msg "b"; user_msg "c"]
    = ("", "<conversation_history>" +:+ nl
             +:+ "User: a" +:+ nl +:+ nl +:+ "Assistant: b" +:+ nl
             +:+ "</conversation_history>" +:+ nl +:+ nl +:+ "c").
Proof.
  split; [reflexivity|]. split; [|reflexivity].
  unfold build_prompt, system_of, history_of in *.
  destruct (scan_messages msgs) as [system history]. simpl in *.
  rewrite Hlast.
  destruct (String.eqb_spec (fst final) "User") as [E|_]; [done|reflexivity].
Qed.

Lemma build_prompt_cases_witness :
  build_prompt [system_msg "s"; user_msg "a"; assistant_msg "b"] = ("s", "b").
Proof.
  apply (build_prompt_cases
           [system_msg "s"; user_msg "a"; assistant_msg "b"] ("Assistant", "b")).
  - reflexivity.
  - vm_compute. discriminate.
Defined.

End BuildPrompt.

(** ** Standard output of the bridge *)

Section BridgeOutput.
Import AgentBridge.

Lemma append_assoc (a b c : string) : (a +:+ b) +:+ c = a +:+ (b +:+ c).
Proof.
  induction a as [|x a IH]; [reflexivity|].
  change (String x ((a +:+ b) +:+ c) = String x (a +:+ (b +:+ c))). by f_equal.
Qed.

Lemma append_nil_r (a : string) : a +:+ "" = a.
Proof.
  induction a as [|x a IH]; [reflexivity|].
  change (String x (a +:+ "") = String x a). by f_equal.
Qed.

Lemma render_line (w : sse) : ∃ t, render w = t +:+ nl.
Proof.
  destruct w as [data|]; cbn [render].
  - exists ("data: " +:+ dumps false data). by rewrite append_assoc.
  - by exists "data: [DONE]".
Qed.

Lemma stdout_text_app (out1 out2 : list sse) :
  stdout_text (out1 ++ out2) = stdout_text out1 +:+ stdout_text out2.
Proof.
  induction out1 as [|w out1 IH]; simpl; [done|].
  by rewrite IH, append_assoc.
Qed.

(** Whatever was written is a sequence of complete lines. *)
Lemma stdout_text_lines (out : list sse) :
  stdout_text out = "" ∨ ∃ t, stdout_text out = t +:+ nl.
Proof.
  induction out as [|w out IH]; [by left|right].
  cbn [stdout_text]. destruct (render_line w) as [t Ht].
  destruct IH as [->|[t' ->]].
  - exists t. by rewrite append_nil_r.
  - exists (render w +:+ t'). by rewrite append_assoc.
Qed.

Lemma emit_done_ends (prompt_tok comp_tok : Z) :
  ∃ pre, emit_done prompt_tok comp_tok = pre ++ [DoneLine].
Proof. unfold emit_done. eauto. Qed.

Lemma handle_message_returned message st st' out :
  handle_message message st = (st', out, true) →
  ∃ pre, out = pre ++ [DoneLine].
Proof.
  destruct message as [content|usage|]; simpl.
  - destruct (process_blocks 0 content (enter_assistant st)). by intros [= _ _].
  - destruct (usage_tokens usage) as [inp outp]. intros [= _ <-].
    apply emit_done_ends.
  - by intros [= _ _].
Qed.

Lemma consume_ends messages ending st :
  ∃ pre, consume messages ending st = pre ++ [DoneLine].
Proof.
  revert st. induction messages as [|message rest IH]; intros st.
  - destruct ending as [|e]; cbn [consume].
    + apply emit_done_ends.
    + destruct (emit_done_ends 0 0) as [pre ->].
      exists (emit (sdk_error e) ++ pre). by rewrite app_assoc.
  - cbn [consume].
    destruct (handle_message message st) as [[st' out] returned] eqn:E.
    destruct returned.
    + by apply handle_message_returned in E.
    + destruct (IH st') as [pre ->]. exists (out ++ pre). by rewrite app_assoc.
Qed.

(** On a payload of the expected shape: whatever the SDK stream does, the
    text written is a sequence of complete lines whose last one is
    [data: [DONE]]. *)
Lemma main_ends_with_done
    (query : string → options → upstream) (p : payload) :
  ∃ pre, main query p = pre ++ [DoneLine]
         ∧ stdout_text (main query p) = stdout_text pre +:+ "data: [DONE]" +:+ nl
         ∧ (stdout_text pre = "" ∨ ∃ t, stdout_text pre = t +:+ nl).
Proof.
  assert (H : ∃ pre, main query p = pre ++ [DoneLine]).
  { unfold main. destruct (build_prompt (payload_messages p)) as [system prompt].
    destruct (String.eqb prompt "").
    - destruct (emit_done_ends 0 0) as [pre ->].
      exists (emit (content_delta "Error: No user message") ++ pre).
      by rewrite app_assoc.
    - destruct (query _ _) as [messages ending]. apply consume_ends. }
  destruct H as [pre H]. exists pre. split; [done|]. split.
  - rewrite H, stdout_text_app. simpl. by rewrite append_nil_r.
  - apply stdout_text_lines.
Qed.

End BridgeOutput.

(** ** Delta tracking *)

Section Deltas.
Import AgentBridge.

Lemma emitted_insert (lens : gmap nat nat) (i j n : nat) :
  emitted (<[i := n]> lens) j = if decide (i = j) then n else emitted lens j.
Proof.
  unfold emitted. case_decide as H.
  - subst. by rewrite lookup_insert_eq.
  - by rewrite lookup_insert_ne.
Qed.

Lemma grows_refl st : grows st st.
Proof. unfold grows. naive_solver. Qed.

Lemma grows_trans st1 st2 st3 : grows st1 st2 → grows st2 st3 → grows st1 st3.
Proof.
  intros (Ht & Hk & Hs & Hw) (Ht' & Hk' & Hs' & Hw').
  repeat split.
  - intros i. specialize (Ht i). specialize (Ht' i). lia.
  - intros i. specialize (Hk i). specialize (Hk' i). lia.
  - set_solver.
  - congruence.
Qed.

Lemma process_block_grows i b st : grows st (process_block i b st).1.
Proof.
  destruct b as [text|thinking|id name input|]; simpl;
    try apply grows_refl.
  - destruct (emitted (text_lens st) i <? len text)%nat eqn:E;
      [|apply grows_refl].
    apply Nat.ltb_lt in E. repeat split; simpl; try done.
    intros j. rewrite emitted_insert. case_decide; subst; lia.
  - destruct (emitted (think_lens st) i <? len thinking)%nat eqn:E;
      [|apply grows_refl].
    apply Nat.ltb_lt in E. repeat split; simpl; try done.
    intros j. rewrite emitted_insert. case_decide; subst; lia.
  - case_decide; [apply grows_refl|].
    repeat split; simpl; try done. set_solver.
Qed.

Lemma process_block_settles i b st : settled i b (process_block i b st).1.
Proof.
  destruct b as [text|thinking|id name input|]; simpl; try done.
  - destruct (emitted (text_lens st) i <? len text)%nat eqn:E; simpl.
    + rewrite emitted_insert. by rewrite decide_True.
    + apply Nat.ltb_ge in E. done.
  - destruct (emitted (think_lens st) i <? len thinking)%nat eqn:E; simpl.
    + rewrite emitted_insert. by rewrite decide_True.
    + apply Nat.ltb_ge in E. done.
  - case_decide; simpl; [done|set_solver].
Qed.

Lemma settled_grows i b st st' : settled i b st → grows st st' → settled i b st'.
Proof.
  intros Hs (Ht & Hk & Hseen & _).
  destruct b as [text|thinking|id name input|]; simpl in *; try done.
  - specialize (Ht i). lia.
  - specialize (Hk i). lia.
  - set_solver.
Qed.

Lemma settled_noop i b st : settled i b st → process_block i b st = (st, []).
Proof.
  destruct b as [text|thinking|id name input|]; simpl; intros H; try done.
  - by rewrite (proj2 (Nat.ltb_ge _ _)).
  - by rewrite (proj2 (Nat.ltb_ge _ _)).
  - by rewrite decide_True.
Qed.

Lemma process_blocks_grows i content st : grows st (process_blocks i content st).1.
Proof.
  revert i st. induction content as [|b content IH]; intros i st; simpl.
  - apply grows_refl.
  - pose proof (process_block_grows i b st) as H1.
    destruct (process_block i b st) as [st1 out1].
    pose proof (IH (S i) st1) as H2.
    destruct (process_blocks (S i) content st1) as [st2 out2].
    simpl in *. by eapply grows_trans.
Qed.

(** After one pass over a content list every block of it is settled. *)
Lemma process_blocks_settles i content st k b :
  content !! k = Some b → settled (i + k) b (process_blocks i content st).1.
Proof.
  revert i st k. induction content as [|b0 content IH]; intros i st k Hk; [done|].
  simpl.
  pose proof (process_block_settles i b0 st) as H1.
  destruct (process_block i b0 st) as [st1 out1].
  pose proof (process_blocks_grows (S i) content st1) as H2.
  pose proof (IH (S i) st1) as H3.
  destruct (process_blocks (S i) content st1) as [st2 out2]. simpl in *.
  destruct k as [|k]; simpl in Hk.
  - injection Hk as <-. rewrite Nat.add_0_r. by eapply settled_grows.
  - replace (i + S k)%nat with (S i + k)%nat by lia. by apply H3.
Qed.

Lemma all_settled_noop i content st :
  (∀ k b, content !! k = Some b → settled (i + k) b st) →
  process_blocks i content st = (st, []).
Proof.
  revert i. induction content as [|b content IH]; intros i H; [done|].
  simpl. rewrite settled_noop.
  - rewrite IH; [done|]. intros k b' Hk.
    replace (S i + k)%nat with (i + S k)%nat by lia. by apply H.
  - specialize (H 0%nat b eq_refl). by rewrite Nat.add_0_r in H.
Qed.

Lemma enter_assistant_was st : was_assistant (enter_assistant st) = true.
Proof. unfold enter_assistant. by destruct (was_assistant st) eqn:E. Qed.

Lemma enter_assistant_id st : was_assistant st = true → enter_assistant st = st.
Proof. unfold enter_assistant. by intros ->. Qed.

Lemma feed_app run1 run2 st :
  feed (map AssistantMessage (run1 ++ run2)) st
  = let '(st1, out1) := feed (map AssistantMessage run1) st in
    let '(st2, out2) := feed (map AssistantMessage run2) st1 in
    (st2, out1 ++ out2).
Proof.
  revert st. induction run1 as [|content run1 IH]; intros st.
  - simpl. by destruct (feed (map AssistantMessage run2) st).
  - cbn [app map feed handle_message].
    destruct (process_blocks 0 content (enter_assistant st)) as [st' out].
    rewrite IH.
    destruct (feed (map AssistantMessage run1) st') as [st1 out1].
    destruct (feed (map AssistantMessage run2) st1) as [st2 out2].
    by rewrite app_assoc.
Qed.

Lemma feed_run_grows run st :
  was_assistant st = true → grows st (feed (map AssistantMessage run) st).1.
Proof.
  revert st. induction run as [|content run IH]; intros st Hw.
  - apply grows_refl.
  - cbn [map feed handle_message]. rewrite (enter_assistant_id st Hw).
    pose proof (process_blocks_grows 0 content st) as H1.
    destruct (process_blocks 0 content st) as [st' out].
    assert (Hw' : was_assistant st' = true).
    { destruct H1 as (_ & _ & _ & H1). simpl in H1. congruence. }
    pose proof (IH st' Hw') as H2.
    destruct (feed (map AssistantMessage run) st') as [st'' out'].
    simpl in *. by eapply grows_trans.
Qed.

Example same_text_twice :
  let m := AssistantMessage [TextBlock "Hello"; ThinkingBlock "hm"] in
  (feed [m; m] initial_tracking).2
  = [Data (content_delta "Hello"); Data (reasoning_delta "hm")].
Proof. reflexivity. Qed.

Example grown_text_emits_suffix :
  (feed [AssistantMessage [TextBlock "Hel"]; AssistantMessage [TextBlock "Hello"]]
        initial_tracking).2
  = [Data (content_delta "Hel"); Data (content_delta "lo")].
Proof. reflexivity. Qed.

End Deltas.

(** ** Tool-call deltas *)

Section ToolCalls.
Import AgentBridge.

Lemma tool_calls_of_tool_call_delta id name input :
  tool_calls_of (Data (tool_call_delta id name input)) = Some [tool_call id name input].
Proof. reflexivity. Qed.

Lemma index_zero_tool_call_delta id name input :
  index_zero (Data (tool_call_delta id name input)).
Proof.
  intros calls H. rewrite tool_calls_of_tool_call_delta in H.
  injection H as <-. by repeat constructor.
Qed.

Lemma index_zero_no_calls w : tool_calls_of w = None → index_zero w.
Proof. intros H calls Hc. congruence. Qed.

Lemma process_block_index_zero i b st : Forall index_zero (process_block i b st).2.
Proof.
  destruct b as [text|thinking|id name input|]; simpl; try by constructor.
  - destruct (_ <? _)%nat; simpl; repeat constructor.
    by apply index_zero_no_calls.
  - destruct (_ <? _)%nat; simpl; repeat constructor.
    by apply index_zero_no_calls.
  - case_decide; simpl; repeat constructor.
    apply index_zero_tool_call_delta.
Qed.

Lemma process_blocks_index_zero i content st :
  Forall index_zero (process_blocks i content st).2.
Proof.
  revert i st. induction content as [|b content IH]; intros i st; simpl.
  - constructor.
  - pose proof (process_block_index_zero i b st) as H1.
    destruct (process_block i b st) as [st1 out1].
    pose proof (IH (S i) st1) as H2.
    destruct (process_blocks (S i) content st1) as [st2 out2].
    simpl in *. by apply Forall_app.
Qed.

Lemma emit_done_index_zero prompt_tok comp_tok :
  Forall index_zero (emit_done prompt_tok comp_tok).
Proof.
  unfold emit_done. apply Forall_app. split.
  - destruct (_ || _); repeat constructor. by apply index_zero_no_calls.
  - repeat constructor. by apply index_zero_no_calls.
Qed.

Lemma handle_message_index_zero message st :
  Forall index_zero (handle_message message st).1.2.
Proof.
  destruct message as [content|usage|]; simpl.
  - pose proof (process_blocks_index_zero 0 content (enter_assistant st)) as H.
    by destruct (process_blocks 0 content (enter_assistant st)).
  - destruct (usage_tokens usage). apply emit_done_index_zero.
  - constructor.
Qed.

Lemma consume_index_zero messages ending st :
  Forall index_zero (consume messages ending st).
Proof.
  revert st. induction messages as [|message rest IH]; intros st; cbn [consume].
  - destruct ending as [|e].
    + apply emit_done_index_zero.
    + apply Forall_app. split; [|apply emit_done_index_zero].
      repeat constructor. by apply index_zero_no_calls.
  - pose proof (handle_message_index_zero message st) as H.
    destruct (handle_message message st) as [[st' out] returned].
    simpl in H. destruct returned; [done|].
    apply Forall_app. split; [done|apply IH].
Qed.

Lemma main_index_zero query p : Forall index_zero (main query p).
Proof.
  unfold main. destruct (build_prompt (payload_messages p)) as [system prompt].
  destruct (String.eqb prompt "").
  - apply Forall_app. split; [|apply emit_done_index_zero].
    repeat constructor. by apply index_zero_no_calls.
  - destruct (query _ _) as [messages ending]. apply consume_index_zero.
Qed.

(** C9: every tool call announced on standard output has [0] in its
    [index] field, whatever the position of the block that caused it; two
    tool invocations of one assistant message are written as two deltas with
    the same index. *)
Theorem tool_call_index_is_always_zero
    (query : string → options → upstream) (p : payload) :
  (∀ w calls call,
      w ∈ main query p → tool_calls_of w = Some calls → call ∈ calls →
      call_index call = Some (JInt 0))
  ∧ (∀ id1 name1 input1 id2 name2 input2,
       (process_blocks 0 [ToolUseBlock id1 name1 input1; ToolUseBlock id2 name2 input2]
                       (enter_assistant initial_tracking)).2
       = [Data (tool_call_delta id1 name1 input1);
          Data (tool_call_delta id2 name2 input2)]
       ∧ call_index (tool_call id1 name1 input1) = Some (JInt 0)
       ∧ call_index (tool_call id2 name2 input2) = Some (JInt 0)).
Proof.
  split.
  - intros w calls call Hw Hcalls Hcall.
    pose proof (main_index_zero query p) as H.
    rewrite Forall_forall in H. specialize (H w Hw calls Hcalls).
    rewrite Forall_forall in H. by apply H.
  - intros. split; [reflexivity|]. split; reflexivity.
Qed.

Lemma tool_call_index_witness :
  call_index (tool_call "toolu_1" "read" (InputDict [("path", JStr "/dash/x")]))
  = Some (JInt 0).
Proof.
  pose (query := fun (_ : string) (_ : options) =>
          ([AssistantMessage
              [TextBlock "ok";
               ToolUseBlock "toolu_1" "read" (InputDict [("path", JStr "/dash/x")])]],
           Exhausted) : upstream).
  pose (p := {| payload_model := Some "acme/claude-x";
                payload_messages := [user_msg "hi"] |}).
  apply (proj1 (tool_call_index_is_always_zero query p)
           (Data (tool_call_delta "toolu_1" "read" (InputDict [("path", JStr "/dash/x")])))
           [tool_call "toolu_1" "read" (InputDict [("path", JStr "/dash/x")])]).
  - apply list_elem_of_In. vm_compute. tauto.
  - reflexivity.
  - apply list_elem_of_In. left. reflexivity.
Defined.

End ToolCalls.

(** ** One delta per tool block position *)

Section ToolCallOnce.
Import AgentBridge.

(** The trace is the output with positions added. *)
Lemma trace_blocks_process i content st :
  (trace_blocks i content st).1 = (process_blocks i content st).1
  ∧ map snd (trace_blocks i content st).2 = (process_blocks i content st).2.
Proof.
  revert i st. induction content as [|b content IH]; intros i st; simpl; [done|].
  destruct (process_block i b st) as [st1 out1].
  destruct (IH (S i) st1) as [IH1 IH2].
  destruct (trace_blocks (S i) content st1) as [st2 tr2].
  destruct (process_blocks (S i) content st1) as [st2' out2]. simpl in *.
  split; [done|]. rewrite map_app, map_map. simpl. rewrite map_id. by f_equal.
Qed.

Lemma trace_run_feed run st :
  (trace_run run st).1 = (feed (map AssistantMessage run) st).1
  ∧ map snd (trace_run run st).2 = (feed (map AssistantMessage run) st).2.
Proof.
  revert st. induction run as [|content run IH]; intros st; [done|].
  cbn [trace_run map feed handle_message].
  destruct (trace_blocks_process 0 content (enter_assistant st)) as [H1 H2].
  destruct (trace_blocks 0 content (enter_assistant st)) as [st1 tr1].
  destruct (process_blocks 0 content (enter_assistant st)) as [st1' out1].
  simpl in H1, H2. subst st1'.
  destruct (IH st1) as [IH1 IH2].
  destruct (trace_run run st1) as [st2 tr2].
  destruct (feed (map AssistantMessage run) st1) as [st2' out2]. simpl in *.
  split; [done|]. rewrite map_app. by f_equal.
Qed.

Lemma trace_run_app run1 run2 st :
  trace_run (run1 ++ run2) st
  = let '(st1, tr1) := trace_run run1 st in
    let '(st2, tr2) := trace_run run2 st1 in
    (st2, tr1 ++ tr2).
Proof.
  revert st. induction run1 as [|content run1 IH]; intros st.
  - simpl. by destruct (trace_run run2 st).
  - cbn [app trace_run].
    destruct (trace_blocks 0 content (enter_assistant st)) as [st' tr].
    rewrite IH.
    destruct (trace_run run1 st') as [st1 tr1].
    destruct (trace_run run2 st1) as [st2 tr2].
    by rewrite app_assoc.
Qed.

Lemma tool_deltas_at_app i tr1 tr2 :
  tool_deltas_at i (tr1 ++ tr2) = tool_deltas_at i tr1 ++ tool_deltas_at i tr2.
Proof. unfold tool_deltas_at. by rewrite filter_app, map_app. Qed.

Lemma tool_deltas_at_other i j out :
  j ≠ i → tool_deltas_at i (map (pair j) out) = [].
Proof.
  intros Hne. unfold tool_deltas_at.
  induction out as [|w out IH]; [done|].
  cbn [map]. rewrite filter_cons_False; [done|]. simpl. tauto.
Qed.

(** What the block at position [i] adds to the tool-call deltas of [i]. *)
Lemma block_tool_deltas i b st :
  tool_deltas_at i (map (pair i) (process_block i b st).2)
  = match b with
    | ToolUseBlock id name input =>
        if decide (i ∈ seen_tools st) then []
        else [Data (tool_call_delta id name input)]
    | _ => []
    end.
Proof.
  unfold tool_deltas_at.
  destruct b as [text|thinking|id name input|]; simpl; try done.
  - destruct (_ <? _)%nat; simpl; [|done].
    rewrite filter_cons_False; [done|]. simpl. intros [_ H]. discriminate H.
  - destruct (_ <? _)%nat; simpl; [|done].
    rewrite filter_cons_False; [done|]. simpl. intros [_ H]. discriminate H.
  - case_decide; simpl; [done|].
    rewrite filter_cons_True; [done|]. simpl. split; reflexivity.
Qed.

Lemma process_block_seen i j b st :
  i ∈ seen_tools (process_block j b st).1
  ↔ i ∈ seen_tools st ∨ (j = i ∧ ∃ id name input, b = ToolUseBlock id name input).
Proof.
  destruct b as [text|thinking|id name input|]; simpl.
  - destruct (_ <? _)%nat; simpl;
      (split; [tauto|intros [?|[_ (?&?&?&?)]]; [done|discriminate]]).
  - destruct (_ <? _)%nat; simpl;
      (split; [tauto|intros [?|[_ (?&?&?&?)]]; [done|discriminate]]).
  - case_decide; simpl.
    + split; [tauto|]. intros [?|[<- _]]; done.
    + rewrite elem_of_union, elem_of_singleton. split.
      * intros [->|?]; [right; eauto|by left].
      * intros [?|[-> _]]; [by right|by left].
  - split; [tauto|intros [?|[_ (?&?&?&?)]]; [done|discriminate]].
Qed.

Lemma trace_blocks_above k content st i :
  (i < k)%nat → tool_deltas_at i (trace_blocks k content st).2 = [].
Proof.
  revert k st. induction content as [|b content IH]; intros k st Hlt; [done|].
  simpl. destruct (process_block k b st) as [st1 out1].
  pose proof (IH (S k) st1) as H.
  destruct (trace_blocks (S k) content st1) as [st2 tr2]. simpl in *.
  rewrite tool_deltas_at_app, tool_deltas_at_other by lia.
  apply H. lia.
Qed.

Lemma trace_blocks_tool_deltas k content st i :
  (k ≤ i)%nat →
  tool_deltas_at i (trace_blocks k content st).2
  = match content !! (i - k)%nat with
    | Some (ToolUseBlock id name input) =>
        if decide (i ∈ seen_tools st) then []
        else [Data (tool_call_delta id name input)]
    | _ => []
    end.
Proof.
  revert k st. induction content as [|b content IH]; intros k st Hle; [done|].
  simpl.
  pose proof (block_tool_deltas k b st) as Hb.
  pose proof (process_block_seen i k b st) as Hseen.
  destruct (process_block k b st) as [st1 out1].
  pose proof (trace_blocks_above (S k) content st1 i) as Habove.
  pose proof (IH (S k) st1) as H.
  destruct (trace_blocks (S k) content st1) as [st2 tr2]. simpl in *.
  rewrite tool_deltas_at_app.
  destruct (decide (k = i)) as [->|Hne].
  - rewrite Nat.sub_diag. simpl. rewrite Hb, Habove by lia. by rewrite app_nil_r.
  - rewrite tool_deltas_at_other by done. simpl.
    replace (i - k)%nat with (S (i - S k)) by lia. simpl.
    rewrite H by lia.
    destruct (content !! (i - S k)%nat) as [[| |id name input|]|]; try done.
    apply decide_ext. rewrite Hseen. split; [|tauto].
    intros [?|[? _]]; [done|lia].
Qed.

Lemma trace_blocks_seen k content st i :
  i ∈ seen_tools (trace_blocks k content st).1
  ↔ i ∈ seen_tools st ∨ ((k ≤ i)%nat ∧ tool_at (i - k) content).
Proof.
  revert k st. induction content as [|b content IH]; intros k st.
  - simpl. unfold tool_at. split; [tauto|]. intros [?|[_ (?&?&?&H)]]; done.
  - simpl.
    pose proof (process_block_seen i k b st) as Hseen.
    destruct (process_block k b st) as [st1 out1].
    pose proof (IH (S k) st1) as H.
    destruct (trace_blocks (S k) content st1) as [st2 tr2]. simpl in *.
    rewrite H, Hseen. unfold tool_at. split.
    + intros [[?|[-> (id & name & input & ->)]]|[Hle (id & name & input & Hl)]].
      * by left.
      * right. split; [lia|]. rewrite Nat.sub_diag. simpl. eauto.
      * right. split; [lia|]. replace (i - k)%nat with (S (i - S k)) by lia.
        simpl. eauto.
    + intros [?|[Hle (id & name & input & Hl)]]; [by left; left|].
      destruct (decide (k = i)) as [->|Hne].
      * rewrite Nat.sub_diag in Hl. simpl in Hl. injection Hl as ->.
        left. right. eauto.
      * right. split; [lia|].
        replace (i - k)%nat with (S (i - S k)) in Hl by lia. simpl in Hl. eauto.
Qed.

Lemma trace_blocks_was k content st :
  was_assistant (trace_blocks k content st).1 = was_assistant st.
Proof.
  rewrite (proj1 (trace_blocks_process k content st)).
  by destruct (process_blocks_grows k content st) as (_ & _ & _ & ?).
Qed.

Lemma trace_run_enter content run st :
  trace_run (content :: run) st = trace_run (content :: run) (enter_assistant st).
Proof.
  cbn [trace_run].
  by rewrite (enter_assistant_id (enter_assistant st) (enter_assistant_was st)).
Qed.

(** Messages without a tool block at [i] write no tool-call delta for [i]
    and leave [i] unannounced. *)
Lemma run_without_tool i run st :
  was_assistant st = true → i ∉ seen_tools st →
  Forall (fun content => ¬ tool_at i content) run →
  tool_deltas_at i (trace_run run st).2 = []
  ∧ (i ∉ seen_tools (trace_run run st).1)
  ∧ (was_assistant (trace_run run st).1 = true).
Proof.
  revert st. induction run as [|content run IH]; intros st Hw Hseen Hrun; [done|].
  apply Forall_cons in Hrun as [Hc Hrun].
  cbn [trace_run]. rewrite (enter_assistant_id st Hw).
  pose proof (trace_blocks_tool_deltas 0 content st i (Nat.le_0_l i)) as Hd.
  pose proof (trace_blocks_seen 0 content st i) as Hs.
  pose proof (trace_blocks_was 0 content st) as Hw1.
  destruct (trace_blocks 0 content st) as [st1 tr1]. simpl in Hd, Hs, Hw1.
  rewrite Nat.sub_0_r in Hd, Hs.
  assert (Hseen1 : i ∉ seen_tools st1).
  { rewrite Hs. intros [?|[_ ?]]; done. }
  destruct (IH st1) as (IH1 & IH2 & IH3); [congruence|done|done|].
  destruct (trace_run run st1) as [st2 tr2]. simpl in *.
  rewrite tool_deltas_at_app, Hd, IH1.
  split; [|done].
  destruct (content !! i) as [[| |id name input|]|] eqn:E; try done.
  exfalso. apply Hc. unfold tool_at. eauto.
Qed.

(** Once [i] is announced, the rest of the run writes nothing more for it. *)
Lemma run_after_announcement i run st :
  was_assistant st = true → i ∈ seen_tools st →
  tool_deltas_at i (trace_run run st).2 = [].
Proof.
  revert st. induction run as [|content run IH]; intros st Hw Hseen; [done|].
  cbn [trace_run]. rewrite (enter_assistant_id st Hw).
  pose proof (trace_blocks_tool_deltas 0 content st i (Nat.le_0_l i)) as Hd.
  pose proof (trace_blocks_seen 0 content st i) as Hs.
  pose proof (trace_blocks_was 0 content st) as Hw1.
  destruct (trace_blocks 0 content st) as [st1 tr1]. simpl in Hd, Hs, Hw1.
  pose proof (IH st1) as IH1.
  destruct (trace_run run st1) as [st2 tr2]. simpl in *.
  rewrite tool_deltas_at_app, Hd, IH1; [|congruence|rewrite Hs; by left].
  rewrite app_nil_r.
  destruct (content !! (i - 0)%nat) as [[| |id name input|]|]; try done.
  by rewrite decide_True.
Qed.

(** The first message of a run that has a tool block at position [i]. *)
Lemma first_tool_at i (run : list (list block)) :
  Exists (tool_at i) run →
  ∃ pre content post id name input,
    run = pre ++ content :: post
    ∧ Forall (fun c => ¬ tool_at i c) pre
    ∧ content !! i = Some (ToolUseBlock id name input).
Proof.
  induction run as [|content run IH]; intros H; [by apply Exists_nil in H|].
  destruct (content !! i) as [b|] eqn:E.
  - destruct b as [text|thinking|id name input|].
    4: { apply Exists_cons in H as [(?&?&?&H)|H]; [congruence|].
         destruct (IH H) as (pre & c & post & id & name & input & -> & Hpre & Hc).
         exists (content :: pre), c, post, id, name, input.
         split; [done|]. split; [|done]. constructor; [|done].
         intros (?&?&?&?). congruence. }
    3: { by exists [], content, run, id, name, input. }
    all: apply Exists_cons in H as [(?&?&?&H)|H]; [congruence|];
      destruct (IH H) as (pre & c & post & id & name & input & -> & Hpre & Hc);
      exists (content :: pre), c, post, id, name, input;
      (split; [done|]); (split; [|done]); constructor; [|done];
      intros (?&?&?&?); congruence.
  - apply Exists_cons in H as [(?&?&?&H)|H]; [congruence|].
    destruct (IH H) as (pre & c & post & id & name & input & -> & Hpre & Hc).
    exists (content :: pre), c, post, id, name, input.
    split; [done|]. split; [|done]. constructor; [|done].
    intros (?&?&?&?). congruence.
Qed.

(** C8: in a run of consecutive assistant messages that starts with the
    tracking reset, every block position [i] that holds a tool-invocation
    block in some message gets exactly one tool-call delta: the one of the
    first message with a tool block at [i], carrying that block's name and
    its arguments as text ([json.dumps] of a dict, [str] of anything else). *)
Theorem one_tool_call_delta_per_block_index
    (st : tracking) (run : list (list block)) (i : nat)
    (Hreset : was_assistant st = false)
    (Htool : Exists (tool_at i) run) :
  map snd (trace_run run st).2 = (feed (map AssistantMessage run) st).2
  ∧ ∃ pre content post id name input,
      run = pre ++ content :: post
      ∧ Forall (fun c => ¬ tool_at i c) pre
      ∧ content !! i = Some (ToolUseBlock id name input)
      ∧ tool_deltas_at i (trace_run run st).2 = [Data (tool_call_delta id name input)]
      ∧ tool_calls_of (Data (tool_call_delta id name input))
        = Some [JObj [("index", JInt 0); ("id", JStr id); ("type", JStr "function");
                      ("function",
                       JObj [("name", JStr name);
                             ("arguments",
                              JStr (match input with
                                    | InputDict fields => dumps true (JObj fields)
                                    | InputOther str => str
                                    end))])]].
Proof.
  split; [apply trace_run_feed|].
  destruct (first_tool_at i run Htool)
    as (pre & content & post & id & name & input & Hrun & Hpre & Hc).
  exists pre, content, post, id, name, input.
  repeat (split; [done|]). split; [|by destruct input].
  assert (Hst : trace_run run st = trace_run run (enter_assistant st)).
  { rewrite Hrun. destruct pre; apply trace_run_enter. }
  rewrite Hst, Hrun, trace_run_app.
  assert (Hempty : i ∉ seen_tools (enter_assistant st)).
  { unfold enter_assistant. rewrite Hreset. simpl. set_solver. }
  destruct (run_without_tool i pre (enter_assistant st) (enter_assistant_was st)
              Hempty Hpre) as (H1 & H2 & H3).
  destruct (trace_run pre (enter_assistant st)) as [st1 tr1]. simpl in H1, H2, H3.
  cbn [trace_run]. rewrite (enter_assistant_id st1 H3).
  pose proof (trace_blocks_tool_deltas 0 content st1 i (Nat.le_0_l i)) as Hd.
  pose proof (trace_blocks_seen 0 content st1 i) as Hs.
  pose proof (trace_blocks_was 0 content st1) as Hw.
  destruct (trace_blocks 0 content st1) as [st2 tr2]. simpl in Hd, Hs, Hw.
  rewrite Nat.sub_0_r in Hd, Hs. rewrite Hc in Hd.
  rewrite decide_False in Hd by done.
  pose proof (run_after_announcement i post st2) as Hpost.
  destruct (trace_run post st2) as [st3 tr3]. simpl in *.
  rewrite !tool_deltas_at_app, H1, Hd, Hpost; [done|congruence|].
  rewrite Hs. right. split; [lia|]. unfold tool_at. eauto.
Qed.

Lemma one_tool_call_delta_witness :
  tool_deltas_at 1 (trace_run partial_tool_run initial_tracking).2
  = [Data (tool_call_delta "toolu_1" "read" (InputDict []))].
Proof.
  destruct (one_tool_call_delta_per_block_index initial_tracking
              partial_tool_run 1%nat eq_refl)
    as (_ & pre & content & post & id & name & input & Hrun & Hpre & Hc & Hd & _).
  - apply Exists_cons. right. apply Exists_cons. left.
    unfold tool_at. simpl. eauto.
  - rewrite Hd. destruct pre as [|c0 [|c1 pre]].
    + injection Hrun as <- _. discriminate Hc.
    + injection Hrun as _ <- _. by injection Hc as <- <- <-.
    + exfalso. apply Forall_cons in Hpre as [_ Hpre].
      apply Forall_cons in Hpre as [Hc1 _].
      injection Hrun as _ <- _. apply Hc1. unfold tool_at. simpl. eauto.
Defined.

End ToolCallOnce.

(** ** The tool relay *)

Section ToolRelay.
Import Agent.

Variable subprocess_run : string → proc_outcome.
Variable json_loads : string → option json.

Lemma collect_texts_objects (items : list (list (string * json))) :
  collect_texts (map JObj items)
  = Ret (map text_field (filter (fun f => is_text_item f = true) items)).
Proof.
  induction items as [|fields items IH]; [done|].
  cbn [map collect_texts item_text]. rewrite IH.
  destruct (is_text_item fields) eqn:E; cbn [bind].
  - by rewrite filter_cons_True.
  - rewrite filter_cons_False; [done|]. by rewrite E.
Qed.

Lemma as_strings_strs (texts : list string) : as_strings (map JStr texts) = Ret texts.
Proof.
  induction texts as [|t texts IH]; [done|].
  cbn [map as_strings]. by rewrite IH.
Qed.

(** C3: when the subprocess call times out, [run_tool] returns the JSON
    text of the one-key error object and raises nothing. *)
Theorem run_tool_timeout (name : string) (args : list (string * json))
    (Htimeout : subprocess_run (rpc_payload name args) = TimeoutExpired) :
  run_tool subprocess_run json_loads name args
  = Ret ("{" +:+ dq +:+ "error" +:+ dq +:+ ": "
             +:+ dq +:+ "Tool call timed out after 60s" +:+ dq +:+ "}").
Proof. unfold run_tool. rewrite Htimeout. reflexivity. Qed.

(** C4, amended: a response line that parses to an object without [error],
    whose [result] is an object (or absent) and whose [content] is an array
    (or absent) of objects with string texts, gives the newline-joined
    [text] fields of the items whose [type] is ["text"]; with no such item,
    the JSON text of the whole [result] object. *)
Theorem run_tool_success (name : string) (args : list (string * json))
    (stdout stderr line0 line1 : string) (rest : list string)
    (resp result : list (string * json))
    (items : list (list (string * json))) (texts : list string)
    (Hrun : subprocess_run (rpc_payload name args) = Completed stdout stderr)
    (Hlines : response_lines stdout = line0 :: line1 :: rest)
    (Hparse : json_loads line1 = Some (JObj resp))
    (Hok : lookup "error" resp = None)
    (Hresult : get "result" (JObj []) resp = JObj result)
    (Hcontent : get "content" (JArr []) result = JArr (map JObj items))
    (Htexts : map text_field (filter (fun f => is_text_item f = true) items)
              = map JStr texts) :
  run_tool subprocess_run json_loads name args
  = Ret (match texts with
         | [] => dumps true (JObj result)
         | _ => join nl texts
         end).
Proof.
  unfold run_tool. rewrite Hrun, Hlines, Hparse.
  cbn [read_response]. rewrite Hok.
  unfold extract_text. rewrite Hresult, Hcontent.
  cbn [iterate bind]. rewrite collect_texts_objects, Htexts. cbn [bind].
  destruct texts as [|t texts]; [done|].
  cbn [map]. change (JStr t :: map JStr texts) with (map JStr (t :: texts)).
  by rewrite as_strings_strs.
Qed.

End ToolRelay.

Lemma run_tool_timeout_witness :
  Agent.run_tool (fun _ => Agent.TimeoutExpired) Agent.sample_loads "working_set" []
  = Agent.Ret ("{" +:+ dq +:+ "error" +:+ dq +:+ ": "
                   +:+ dq +:+ "Tool call timed out after 60s" +:+ dq +:+ "}").
Proof.
  apply (run_tool_timeout (fun _ => Agent.TimeoutExpired) Agent.sample_loads
           "working_set" []).
  reflexivity.
Defined.

Lemma run_tool_success_witness :
  Agent.run_tool (fun _ => Agent.Completed Agent.sample_stdout "") Agent.sample_loads
                 "tasks" []
  = Agent.Ret ("3 tasks" +:+ nl +:+ "1 blocked").
Proof.
  apply (run_tool_success (fun _ => Agent.Completed Agent.sample_stdout "")
           Agent.sample_loads "tasks" [] Agent.sample_stdout ""
           (dumps true (JObj [("jsonrpc", JStr "2.0"); ("id", JInt 0); ("result", JObj [])]))
           (dumps true (JObj Agent.sample_response)) []
           Agent.sample_response Agent.sample_result
           [[("type", JStr "text"); ("text", JStr "3 tasks")];
            [("type", JStr "image"); ("data", JStr "AAAA")];
            [("type", JStr "text"); ("text", JStr "1 blocked")]]
           ["3 tasks"; "1 blocked"]); reflexivity.
Defined.

(** ** The chat loop *)

Section ChatLoop.
Import Agent.

Variable subprocess_run : string → proc_outcome.
Variable json_loads : string → option json.
Variable create : list chat_message → api_outcome.

Local Abbreviation run_tools := (Agent.run_tools subprocess_run json_loads).
Local Abbreviation tool_loop := (Agent.tool_loop subprocess_run json_loads create).
Local Abbreviation chat_turn := (Agent.chat_turn subprocess_run json_loads create).

(** Running tools prints, it never touches the history. *)
Lemma run_tools_messages tool_blocks s tool_results s' :
  run_tools tool_blocks s = Ret (tool_results, s') → messages s' = messages s.
Proof.
  revert s tool_results s'.
  induction tool_blocks as [|b tool_blocks IH]; intros s tool_results s' H.
  - by injection H as _ <-.
  - destruct b as [text|id name input|type text]; cbn [Agent.run_tools] in H.
    + by apply IH in H.
    + destruct (run_tool subprocess_run json_loads name input) as [r|e];
        cbn [bind] in H; [|done].
      destruct (run_tools tool_blocks (print (format_tool_call name input) s))
        as [[rs s1]|e] eqn:E; cbn [bind] in H; [|done].
      injection H as _ <-. simpl. by apply IH in E.
    + by apply IH in H.
Qed.

Lemma append_messages m s : messages (append m s) = messages s ++ [m].
Proof. done. Qed.

(** One trip through the loop body whose re-issued call fails. *)
Lemma tool_loop_break fuel resp s tool_results s2 e :
  stop_reason resp = "tool_use" →
  run_tools (filter (fun b => is_tool_use b = true) (response_content resp))
            (append (assistant_turn resp) s) = Ret (tool_results, s2) →
  create (messages s ++ [assistant_turn resp; tool_result_turn tool_results])
  = APIError e →
  tool_loop (S fuel) resp s
  = Done (resp,
          {| messages := messages s ++ [assistant_turn resp; tool_result_turn tool_results];
             printed := printed s2 ++ [api_error_line e] |}).
Proof.
  intros Hstop Htools Hcreate. cbn [Agent.tool_loop].
  rewrite Hstop, String.eqb_refl, Htools.
  pose proof (run_tools_messages _ _ _ _ Htools) as Hm.
  rewrite append_messages in Hm.
  rewrite append_messages, Hm, <- app_assoc. cbn [app].
  rewrite Hcreate. unfold print, append. simpl. rewrite Hm.
  by rewrite <- app_assoc.
Qed.

(** The history at the exit of the tool loop: untouched, or ending with a
    tool-result turn. *)
Lemma tool_loop_last fuel resp s resp' s' :
  tool_loop fuel resp s = Done (resp', s') →
  (resp' = resp ∧ s' = s)
  ∨ ∃ tool_results, last (messages s') = Some (tool_result_turn tool_results).
Proof.
  revert resp s. induction fuel as [|fuel IH]; intros resp s H.
  - cbn [Agent.tool_loop] in H.
    destruct (String.eqb (stop_reason resp) "tool_use"); [done|].
    injection H as <- <-. by left.
  - cbn [Agent.tool_loop] in H.
    destruct (String.eqb (stop_reason resp) "tool_use").
    2: { injection H as <- <-. by left. }
    destruct (run_tools _ _) as [[tool_results s2]|e]; [|done].
    destruct (create _) as [r|e] eqn:Hc.
    + apply IH in H as [[-> ->]|H]; [|by right].
      right. exists tool_results. rewrite append_messages. apply last_snoc.
    + injection H as <- <-. right. exists tool_results. simpl. apply last_snoc.
Qed.

(** C6: the two API failure paths differ.  When the first call of a turn
    fails, the user turn just appended is popped and the history is the one
    from before the turn.  When a call re-issued inside the tool loop fails,
    the loop is left with the assistant turn and the tool-result turn still
    in the history, and they are still there when the turn ends. *)
Theorem api_failure_rolls_back_only_the_first_call :
  (∀ fuel user_input s e,
      create (messages s ++ [user_turn user_input]) = APIError e →
      chat_turn fuel user_input s
      = Done {| messages := messages s;
                printed := printed s ++ [api_error_line e] |})
  ∧ (∀ fuel resp s tool_results s2 e,
      stop_reason resp = "tool_use" →
      run_tools (filter (fun b => is_tool_use b = true) (response_content resp))
                (append (assistant_turn resp) s) = Ret (tool_results, s2) →
      create (messages s ++ [assistant_turn resp; tool_result_turn tool_results])
      = APIError e →
      tool_loop (S fuel) resp s
      = Done (resp,
              {| messages := messages s
                             ++ [assistant_turn resp; tool_result_turn tool_results];
                 printed := printed s2 ++ [api_error_line e] |}))
  ∧ (∀ fuel user_input s resp tool_results s2 e,
      create (messages s ++ [user_turn user_input]) = ApiOk resp →
      stop_reason resp = "tool_use" →
      run_tools (filter (fun b => is_tool_use b = true) (response_content resp))
                (append (assistant_turn resp) (append (user_turn user_input) s))
      = Ret (tool_results, s2) →
      create (messages s ++ [user_turn user_input; assistant_turn resp;
                             tool_result_turn tool_results]) = APIError e →
      ∃ final,
        chat_turn (S fuel) user_input s = Done final
        ∧ messages final
          = (messages s ++ [user_turn user_input; assistant_turn resp;
                            tool_result_turn tool_results])
            ++ match omap block_text (response_content resp) with
               | [] => []
               | _ => [assistant_turn resp]
               end).
Proof.
  split; [|split].
  - intros fuel user_input s e H. unfold Agent.chat_turn.
    rewrite append_messages, H. unfold pop, print, append. simpl.
    by rewrite removelast_last.
  - apply tool_loop_break.
  - intros fuel user_input s resp tool_results s2 e Hfirst Hstop Htools Hcreate.
    unfold Agent.chat_turn. rewrite append_messages, Hfirst.
    rewrite (tool_loop_break fuel resp (append (user_turn user_input) s)
               tool_results s2 e Hstop Htools).
    2: { rewrite append_messages, <- app_assoc. exact Hcreate. }
    eexists. split; [reflexivity|].
    unfold print_text_response. rewrite append_messages, <- app_assoc. cbn [app].
    destruct (omap block_text (response_content resp)); simpl.
    + by rewrite app_nil_r.
    + reflexivity.
Qed.

(** C10: a response that ends the turn and has no block with a [text]
    attribute leaves the session alone: nothing is printed and no assistant
    turn is appended, so the history ends with the user turn appended before
    the call (the user line, or the tool results of the last round). *)
Theorem final_response_without_text_changes_nothing :
  (∀ resp s, omap block_text (response_content resp) = [] →
             print_text_response resp s = s)
  ∧ (∀ fuel user_input s resp,
       create (messages s ++ [user_turn user_input]) = ApiOk resp →
       stop_reason resp ≠ "tool_use" →
       omap block_text (response_content resp) = [] →
       chat_turn fuel user_input s
       = Done {| messages := messages s ++ [user_turn user_input];
                 printed := printed s |})
  ∧ (∀ fuel user_input s resp0 resp s2,
       create (messages s ++ [user_turn user_input]) = ApiOk resp0 →
       tool_loop fuel resp0 (append (user_turn user_input) s) = Done (resp, s2) →
       omap block_text (response_content resp) = [] →
       chat_turn fuel user_input s = Done s2
       ∧ ∃ m, last (messages s2) = Some m ∧ role m = "user").
Proof.
  assert (Hprint : ∀ resp s, omap block_text (response_content resp) = [] →
                             print_text_response resp s = s).
  { intros resp s H. unfold print_text_response. by rewrite H. }
  split; [exact Hprint|]. split.
  - intros fuel user_input s resp Hfirst Hstop Htext.
    unfold Agent.chat_turn. rewrite append_messages, Hfirst.
    apply String.eqb_neq in Hstop.
    destruct fuel; cbn [Agent.tool_loop]; rewrite Hstop; by rewrite Hprint.
  - intros fuel user_input s resp0 resp s2 Hfirst Hloop Htext.
    unfold Agent.chat_turn. rewrite append_messages, Hfirst, Hloop.
    split; [by rewrite Hprint|].
    apply tool_loop_last in Hloop as [[_ ->]|[tool_results H]].
    + exists (user_turn user_input). split; [|done].
      rewrite append_messages. apply last_snoc.
    + by exists (tool_result_turn tool_results).
Qed.

End ChatLoop.

Lemma api_failure_witness :
  ∃ final,
    Agent.chat_turn (fun _ => Agent.TimeoutExpired) Agent.sample_loads
                    Agent.failing_followup 1 "status?" Agent.empty_session
    = Agent.Done final
    ∧ Agent.messages final
      = [Agent.user_turn "status?"; Agent.assistant_turn Agent.sample_tool_response;
         Agent.tool_result_turn
           [{| Agent.tool_use_id := "toolu_1";
               Agent.tool_content :=
                 "{" +:+ dq +:+ "error" +:+ dq +:+ ": "
                     +:+ dq +:+ "Tool call timed out after 60s" +:+ dq +:+ "}" |}];
         Agent.assistant_turn Agent.sample_tool_response].
Proof.
  apply (proj2 (proj2 (api_failure_rolls_back_only_the_first_call
                         (fun _ => Agent.TimeoutExpired) Agent.sample_loads
                         Agent.failing_followup))
           0%nat "status?" Agent.empty_session Agent.sample_tool_response
           [{| Agent.tool_use_id := "toolu_1";
               Agent.tool_content :=
                 "{" +:+ dq +:+ "error" +:+ dq +:+ ": "
                     +:+ dq +:+ "Tool call timed out after 60s" +:+ dq +:+ "}" |}]
           (Agent.print (Agent.format_tool_call "tasks" [])
              (Agent.append (Agent.assistant_turn Agent.sample_tool_response)
                 (Agent.append (Agent.user_turn "status?") Agent.empty_session)))
           "overloaded"); reflexivity.
Defined.

Lemma silent_final_response_witness :
  Agent.chat_turn (fun _ => Agent.TimeoutExpired) Agent.sample_loads
                  Agent.silent_api 0 "hi" Agent.empty_session
  = Agent.Done {| Agent.messages := [Agent.user_turn "hi"]; Agent.printed := [] |}.
Proof.
  apply (proj1 (proj2 (final_response_without_text_changes_nothing
                         (fun _ => Agent.TimeoutExpired) Agent.sample_loads
                         Agent.silent_api))
           0%nat "hi" Agent.empty_session Agent.sample_silent_response).
  - reflexivity.
  - vm_compute. discriminate.
  - reflexivity.
Defined.

(** ** More on the prompt builder *)

Section PromptBuilder.
Import AgentBridge.

Lemma scan_message_system system history msg :
  fst (scan_message (system, history) msg)
  = if String.eqb (get "role" "" msg) "system" then get "content" "" msg else system.
Proof.
  unfold scan_message.
  destruct (String.eqb (get "role" "" msg) "system"); [done|].
  destruct (String.eqb (get "role" "" msg) "user"); [done|].
  by destruct (_ && _).
Qed.

Lemma fold_scan_keeps_system msgs system history :
  Forall (fun msg => get "role" "" msg ≠ "system") msgs →
  fst (fold_left scan_message msgs (system, history)) = system.
Proof.
  revert system history.
  induction msgs as [|msg msgs IH]; intros system history H; [done|].
  apply Forall_cons in H as [Hmsg H]. cbn [fold_left].
  pose proof (scan_message_system system history msg) as Hs.
  destruct (scan_message (system, history) msg) as [system' history'].
  rewrite IH by done. simpl in Hs. rewrite Hs.
  by rewrite (proj2 (String.eqb_neq _ _) Hmsg).
Qed.

Lemma build_prompt_system msgs : fst (build_prompt msgs) = system_of msgs.
Proof.
  unfold build_prompt, system_of.
  destruct (scan_messages msgs) as [system history]. simpl.
  destruct (last history) as [final|]; [|done].
  destruct (negb _); [done|]. by destruct (_ =? _)%nat.
Qed.

(** The system prompt is the content of the last system message, and empty
    when there is none. *)
Theorem system_prompt_is_last_system_message
    (pre post : list message) (msg : message)
    (Hrole : get "role" "" msg = "system")
    (Hpost : Forall (fun m => get "role" "" m ≠ "system") post) :
  fst (build_prompt (pre ++ msg :: post)) = get "content" "" msg
  ∧ fst (build_prompt post) = "".
Proof.
  rewrite !build_prompt_system. unfold system_of, scan_messages. split.
  - rewrite fold_left_app. cbn [fold_left].
    destruct (fold_left scan_message pre ("", [])) as [system history].
    pose proof (scan_message_system system history msg) as Hs.
    destruct (scan_message (system, history) msg) as [system' history'].
    rewrite fold_scan_keeps_system by done.
    simpl in Hs. by rewrite Hs, Hrole.
  - by apply fold_scan_keeps_system.
Qed.

Lemma system_prompt_witness :
  fst (build_prompt ([system_msg "old"; user_msg "a"]
                     ++ system_msg "new" :: [assistant_msg "b"; user_msg "c"]))
  = "new".
Proof.
  apply (system_prompt_is_last_system_message
           [system_msg "old"; user_msg "a"] [assistant_msg "b"; user_msg "c"]
           (system_msg "new")).
  - reflexivity.
  - repeat constructor; vm_compute; discriminate.
Defined.

(** With a user turn last and at least one turn before it, the prompt is
    the earlier turns, rendered and separated by blank lines inside the
    history wrapper, followed by the content of the last turn. *)
Theorem multi_turn_prompt (msgs : list message) (prior : list turn) (text : string)
    (Hhistory : history_of msgs = prior ++ [("User", text)])
    (Hprior : prior ≠ []) :
  snd (build_prompt msgs)
  = "<conversation_history>" +:+ nl
      +:+ join (nl +:+ nl) (map render_turn prior) +:+ nl
      +:+ "</conversation_history>" +:+ nl +:+ nl +:+ text.
Proof.
  unfold build_prompt, history_of in *.
  destruct (scan_messages msgs) as [system history]. simpl in Hhistory. subst history.
  rewrite last_snoc. cbn [fst snd].
  change (negb (String.eqb "User" "User")) with false. cbv iota.
  rewrite length_app. cbn [length].
  destruct prior as [|t prior]; [done|]. cbn [length].
  replace (S (length prior) + 1 =? 1)%nat with false
    by (symmetry; apply Nat.eqb_neq; lia).
  replace (S (length prior) + 1 - 1)%nat with (length (t :: prior))
    by (cbn [length]; lia).
  by rewrite firstn_app, Nat.sub_diag, firstn_all, app_nil_r.
Qed.

Lemma multi_turn_prompt_witness :
  snd (build_prompt [user_msg "a"; assistant_msg "b"; assistant_msg ""; user_msg "c"])
  = "<conversation_history>" +:+ nl
      +:+ join (nl +:+ nl) (map render_turn [("User", "a"); ("Assistant", "b")]) +:+ nl
      +:+ "</conversation_history>" +:+ nl +:+ nl +:+ "c".
Proof.
  apply (multi_turn_prompt
           [user_msg "a"; assistant_msg "b"; assistant_msg ""; user_msg "c"]
           [("User", "a"); ("Assistant", "b")] "c").
  - reflexivity.
  - discriminate.
Defined.

(** When no message forms a turn, the bridge reports the missing user
    message and stops: the SDK is not asked, whatever it would answer. *)
Theorem no_turn_no_query (query : string → options → upstream) (p : payload)
    (Hnone : Forall (fun m => get "role" "" m ≠ "user"
                              ∧ (get "role" "" m ≠ "assistant"
                                 ∨ get "content" "" m = ""))
                    (payload_messages p)) :
  main query p = [Data (content_delta "Error: No user message"); DoneLine].
Proof.
  assert (Hh : history_of (payload_messages p) = []).
  { unfold history_of, scan_messages. rewrite fold_scan_history. cbn [app].
    induction Hnone as [|m ms [Hu Ha] _ IH]; [done|].
    cbn [flat_map]. rewrite IH, app_nil_r. unfold turns_of.
    rewrite decide_False by done. rewrite decide_False by tauto. done. }
  unfold main, build_prompt. unfold history_of in Hh.
  destruct (scan_messages (payload_messages p)) as [system history].
  simpl in Hh. subst history. reflexivity.
Qed.

Lemma no_turn_no_query_witness :
  main (fun _ _ => ([AssistantMessage [TextBlock "unused"]], Exhausted))
       {| payload_model := None;
          payload_messages := [system_msg "be brief"; assistant_msg "";
                               [("role", "tool"); ("content", "42")]] |}
  = [Data (content_delta "Error: No user message"); DoneLine].
Proof.
  apply no_turn_no_query.
  apply Forall_cons. split.
  { split; [vm_compute; discriminate|left; vm_compute; discriminate]. }
  apply Forall_cons. split.
  { split; [vm_compute; discriminate|right; reflexivity]. }
  apply Forall_cons. split.
  { split; [vm_compute; discriminate|left; vm_compute; discriminate]. }
  apply Forall_nil_2.
Defined.

End PromptBuilder.

(** ** The stream as a whole *)

Section Stream.
Import AgentBridge.

Local Ltac single_event := apply Forall_cons; split; [|apply Forall_nil_2].

Lemma process_block_wire i b st : Forall wire_event (process_block i b st).2.
Proof.
  destruct b as [text|thinking|id name input|]; simpl; try by constructor.
  - destruct (_ <? _)%nat; simpl; [single_event|constructor].
    right. left. eauto.
  - destruct (_ <? _)%nat; simpl; [single_event|constructor].
    right. right. left. eauto.
  - case_decide; simpl; [constructor|single_event].
    right. right. right. left. eauto.
Qed.

Lemma process_blocks_wire i content st :
  Forall wire_event (process_blocks i content st).2.
Proof.
  revert i st. induction content as [|b content IH]; intros i st; simpl.
  - constructor.
  - pose proof (process_block_wire i b st) as H1.
    destruct (process_block i b st) as [st1 out1].
    pose proof (IH (S i) st1) as H2.
    destruct (process_blocks (S i) content st1) as [st2 out2].
    simpl in *. by apply Forall_app.
Qed.

Lemma emit_done_wire prompt_tok comp_tok :
  Forall wire_event (emit_done prompt_tok comp_tok).
Proof.
  unfold emit_done. apply Forall_app. split.
  - destruct (_ || _); [single_event|constructor]. do 4 right. eauto.
  - single_event. by left.
Qed.

Lemma handle_message_wire message st :
  Forall wire_event (handle_message message st).1.2.
Proof.
  destruct message as [content|usage|]; simpl.
  - pose proof (process_blocks_wire 0 content (enter_assistant st)) as H.
    by destruct (process_blocks 0 content (enter_assistant st)).
  - destruct (usage_tokens usage). apply emit_done_wire.
  - constructor.
Qed.

Lemma consume_wire messages ending st :
  Forall wire_event (consume messages ending st).
Proof.
  revert st. induction messages as [|message rest IH]; intros st; cbn [consume].
  - destruct ending as [|e].
    + apply emit_done_wire.
    + apply Forall_app. split; [|apply emit_done_wire].
      single_event. right. left. unfold sdk_error. eauto.
  - pose proof (handle_message_wire message st) as H.
    destruct (handle_message message st) as [[st' out] returned].
    simpl in H. destruct returned; [done|].
    apply Forall_app. split; [done|apply IH].
Qed.

Lemma main_wire (query : string → options → upstream) (p : payload) :
  Forall wire_event (main query p).
Proof.
  unfold main. destruct (build_prompt (payload_messages p)) as [system prompt].
  destruct (String.eqb prompt "").
  - apply Forall_app. split; [|apply emit_done_wire].
    single_event. right. left. eauto.
  - destruct (query _ _) as [messages ending]. apply consume_wire.
Qed.

(** Whatever the SDK sends, the bridge writes nothing but content deltas,
    reasoning deltas, tool-call deltas, a usage event and the sentinel. *)
Theorem main_writes_only_wire_events
    (query : string → options → upstream) (p : payload) :
  Forall wire_event (main query p).
Proof. apply main_wire. Qed.

Lemma process_block_data i b st :
  Forall (fun w => w ≠ DoneLine) (process_block i b st).2.
Proof.
  destruct b as [text|thinking|id name input|]; simpl; try by constructor.
  - destruct (_ <? _)%nat; simpl; [single_event|constructor]. discriminate.
  - destruct (_ <? _)%nat; simpl; [single_event|constructor]. discriminate.
  - case_decide; simpl; [constructor|single_event]. discriminate.
Qed.

Lemma process_blocks_data i content st :
  Forall (fun w => w ≠ DoneLine) (process_blocks i content st).2.
Proof.
  revert i st. induction content as [|b content IH]; intros i st; simpl.
  - constructor.
  - pose proof (process_block_data i b st) as H1.
    destruct (process_block i b st) as [st1 out1].
    pose proof (IH (S i) st1) as H2.
    destruct (process_blocks (S i) content st1) as [st2 out2].
    simpl in *. by apply Forall_app.
Qed.

Lemma emit_done_once prompt_tok comp_tok :
  ∃ pre, emit_done prompt_tok comp_tok = pre ++ [DoneLine]
         ∧ Forall (fun w => w ≠ DoneLine) pre.
Proof.
  unfold emit_done. eexists. split; [reflexivity|].
  destruct (_ || _); [single_event|constructor]. discriminate.
Qed.

Lemma consume_once messages ending st :
  ∃ pre, consume messages ending st = pre ++ [DoneLine]
         ∧ Forall (fun w => w ≠ DoneLine) pre.
Proof.
  revert st. induction messages as [|message rest IH]; intros st; cbn [consume].
  - destruct (emit_done_once 0 0) as (pre & -> & Hpre).
    destruct ending as [|e]; [eauto|].
    exists (emit (sdk_error e) ++ pre). split; [by rewrite app_assoc|].
    apply Forall_app. split; [|done]. single_event. discriminate.
  - destruct message as [content|usage|]; cbn [handle_message].
    + pose proof (process_blocks_data 0 content (enter_assistant st)) as H.
      destruct (process_blocks 0 content (enter_assistant st)) as [st' out].
      destruct (IH st') as (pre & -> & Hpre).
      exists (out ++ pre). split; [by rewrite app_assoc|]. by apply Forall_app.
    + destruct (usage_tokens usage). apply emit_done_once.
    + apply IH.
Qed.

Lemma feed_no_result pre st rest ending :
  Forall (fun m => is_result m = false) pre →
  consume (pre ++ rest) ending st
  = (feed pre st).2 ++ consume rest ending (feed pre st).1.
Proof.
  revert st. induction pre as [|message pre IH]; intros st H; [done|].
  apply Forall_cons in H as [Hm H].
  cbn [app consume feed].
  destruct message as [content|usage|]; [| discriminate Hm |]; cbn [handle_message].
  - destruct (process_blocks 0 content (enter_assistant st)) as [st' out].
    rewrite (IH st' H). destruct (feed pre st') as [st'' out'].
    simpl. by rewrite app_assoc.
  - rewrite (IH _ H). by destruct (feed pre _) as [st'' out'].
Qed.

(** The first result message ends the stream: what follows it, and how the
    generator would have ended, make no difference.  The output is what the
    messages before it gave, then the usage event (if any token count is
    not zero) and the sentinel. *)
Theorem result_message_ends_stream
    (pre post : list sdk_message) (usage : option (list (string * Z)))
    (ending : stream_end) (st : tracking)
    (Hpre : Forall (fun m => is_result m = false) pre) :
  consume (pre ++ ResultMessage usage :: post) ending st
  = (feed pre st).2
    ++ emit_done (usage_tokens usage).1 (usage_tokens usage).2.
Proof.
  rewrite feed_no_result by done. cbn [consume handle_message].
  by destruct (usage_tokens usage).
Qed.

Lemma result_message_ends_stream_witness :
  consume ([AssistantMessage [TextBlock "Hi"]; OtherMessage]
           ++ ResultMessage (Some [("output_tokens", 2)])
              :: [AssistantMessage [TextBlock "late"]])
          (Raised "boom") initial_tracking
  = [Data (content_delta "Hi"); Data (usage_event 0 2); DoneLine].
Proof.
  apply (result_message_ends_stream [AssistantMessage [TextBlock "Hi"]; OtherMessage]
           [AssistantMessage [TextBlock "late"]] (Some [("output_tokens", 2)])
           (Raised "boom") initial_tracking).
  apply Forall_cons. split; [reflexivity|].
  apply Forall_cons. split; [reflexivity|]. apply Forall_nil_2.
Defined.

(** After any message that is not an assistant message, a run of assistant
    messages is written as at the start of the stream: nothing tracked
    before the interruption is remembered. *)
Theorem interruption_resets_tracking (run : list (list block)) (st : tracking) :
  (feed (OtherMessage :: map AssistantMessage run) st).2
  = (feed (map AssistantMessage run) initial_tracking).2.
Proof.
  cbn [feed handle_message].
  destruct run as [|content run]; [done|].
  cbn [map feed handle_message]. unfold enter_assistant. cbn [was_assistant].
  destruct (process_blocks 0 content _) as [st' out].
  by destruct (feed (map AssistantMessage run) st').
Qed.

End Stream.

(** ** Line framing *)

Section Framing.
Import AgentBridge.

Lemma has_nl_app (a b : string) : has_nl (a +:+ b) = has_nl a || has_nl b.
Proof.
  induction a as [|c a IH]; [done|].
  change (String c a +:+ b) with (String c (a +:+ b)).
  cbn [has_nl]. by rewrite IH, orb_assoc.
Qed.

Lemma has_nl_join (sep : string) (parts : list string) :
  has_nl sep = false → Forall (fun part => has_nl part = false) parts →
  has_nl (join sep parts) = false.
Proof.
  intros Hsep H. induction H as [|part parts Hpart H IH]; [done|].
  cbn [join]. destruct parts as [|part' parts]; [done|].
  by rewrite !has_nl_app, Hpart, Hsep, IH.
Qed.

Lemma escape_char_one_line (ensure_ascii : bool) (c : ascii) :
  has_nl (escape_char ensure_ascii c) = false.
Proof.
  destruct ensure_ascii, c as [[] [] [] [] [] [] [] []]; reflexivity.
Qed.

Lemma quote_one_line (ensure_ascii : bool) (s : string) :
  has_nl (quote ensure_ascii s) = false.
Proof.
  unfold quote. rewrite !has_nl_app.
  replace (has_nl (escape ensure_ascii s)) with false; [done|].
  induction s as [|c s IH]; [done|].
  cbn [escape]. by rewrite has_nl_app, escape_char_one_line, <- IH.
Qed.

Lemma of_Z_one_line (n : Z) : has_nl (of_Z n) = false.
Proof.
  assert (H : ∀ d, has_nl (NilEmpty.string_of_uint d) = false).
  { induction d; cbn [NilEmpty.string_of_uint has_nl]; try done. }
  assert (H' : ∀ d, has_nl (NilZero.string_of_uint d) = false).
  { intros d. destruct d; try apply H. reflexivity. }
  unfold of_Z. destruct (Z.to_int n) as [d|d]; cbn [NilZero.string_of_int].
  - apply H'.
  - cbn [has_nl]. apply H'.
Qed.

(** [json.dumps] never writes a line feed: inside strings it is escaped. *)
Lemma dumps_one_line (ensure_ascii : bool) :
  ∀ j, clean j = true → has_nl (dumps ensure_ascii j) = false.
Proof.
  fix IH 1. intros [|b|n|r|s|items|fields] Hc; cbn [dumps].
  - reflexivity.
  - by destruct b.
  - apply of_Z_one_line.
  - cbn [clean] in Hc. by apply negb_true_iff in Hc.
  - apply quote_one_line.
  - rewrite !has_nl_app, has_nl_join; [done|done|].
    cbn [clean] in Hc. induction items as [|item items IHitems]; constructor.
    + apply IH. cbn [forallb] in Hc. by apply andb_true_iff in Hc as [? _].
    + apply IHitems. cbn [forallb] in Hc. by apply andb_true_iff in Hc as [_ ?].
  - rewrite !has_nl_app, has_nl_join; [done|done|].
    cbn [clean] in Hc. induction fields as [|[k v] fields IHfields]; constructor.
    + cbn [fst snd]. rewrite !has_nl_app, quote_one_line.
      cbn [forallb snd] in Hc. apply andb_true_iff in Hc as [Hv _].
      by rewrite (IH v Hv).
    + apply IHfields. cbn [forallb] in Hc. by apply andb_true_iff in Hc as [_ ?].
Qed.

Lemma wire_event_one_line (w : sse) : wire_event w → has_nl (line_of w) = false.
Proof.
  intros [->|[[s ->]|[[s ->]|[(id & name & input & ->)|(a & b & ->)]]]];
    [reflexivity|..]; cbn [line_of]; rewrite has_nl_app;
    rewrite dumps_one_line; reflexivity.
Qed.

(** Every write of the bridge is one line: the text before the final line
    feed contains none, whatever characters the content, the reasoning, the
    tool arguments or the error text hold. *)
Theorem every_event_is_one_line
    (query : string → options → upstream) (p : payload) :
  Forall (fun w => render w = line_of w +:+ nl ∧ has_nl (line_of w) = false)
         (main query p).
Proof.
  eapply Forall_impl; [apply main_wire|].
  intros w Hw. split; [|by apply wire_event_one_line].
  destruct w as [data|]; cbn [render line_of]; [|done].
  by rewrite append_assoc.
Qed.

Lemma split_lines_first (a rest : string) :
  has_nl a = false → split_lines (a +:+ nl +:+ rest) = a :: split_lines rest.
Proof.
  induction a as [|c a IH]; intros H; [reflexivity|].
  cbn [has_nl] in H. apply orb_false_iff in H as [Hc Ha].
  change (String c a +:+ nl +:+ rest) with (String c (a +:+ nl +:+ rest)).
  cbn [split_lines]. by rewrite Hc, (IH Ha).
Qed.

(** The standard input handed to dashmcp reads, line by line, as the
    [initialize] request, then the [tools/call] request, then nothing. *)
Theorem rpc_payload_is_two_lines (name : string) (args : list (string * json))
    (Hargs : clean (JObj args) = true) :
  split_lines (Agent.rpc_payload name args)
  = [dumps true Agent.init_req; dumps true (Agent.call_req name args); ""].
Proof.
  unfold Agent.rpc_payload.
  rewrite split_lines_first by (by apply dumps_one_line).
  replace (dumps true (Agent.call_req name args) +:+ nl)
    with (dumps true (Agent.call_req name args) +:+ nl +:+ "") by reflexivity.
  rewrite split_lines_first; [done|].
  apply dumps_one_line. cbn [clean Agent.call_req forallb snd] in *.
  by rewrite Hargs.
Qed.

Lemma rpc_payload_witness :
  split_lines (Agent.rpc_payload "remember"
                 [("type", JStr "todo"); ("text", JStr ("two" +:+ nl +:+ "lines"))])
  = [dumps true Agent.init_req;
     dumps true (Agent.call_req "remember"
                   [("type", JStr "todo"); ("text", JStr ("two" +:+ nl +:+ "lines"))]);
     ""].
Proof. apply rpc_payload_is_two_lines. reflexivity. Defined.

End Framing.

(** ** Failure paths of the tool relay *)

Section RelayFailures.
Import Agent.

Variable subprocess_run : string → proc_outcome.
Variable json_loads : string → option json.

Lemma len_app (a b : string) : len (a +:+ b) = (len a + len b)%nat.
Proof.
  induction a as [|c a IH]; [done|].
  change (String c a +:+ b) with (String c (a +:+ b)).
  unfold len in *. cbn [String.length]. by rewrite IH.
Qed.

Lemma len_take (n : nat) (s : string) : (len (take n s) ≤ n)%nat.
Proof.
  revert s. induction n as [|n IH]; intros [|c s]; unfold len in *;
    cbn [take String.length]; try lia.
  specialize (IH s). lia.
Qed.

(** Fewer than two non-blank output lines: [run_tool] returns the
    no-response error object, with at most 500 characters of the
    subprocess's standard error, and raises nothing. *)
Theorem run_tool_no_response_line (name : string) (args : list (string * json))
    (stdout stderr : string)
    (Hrun : subprocess_run (rpc_payload name args) = Completed stdout stderr)
    (Hlines : (length (response_lines stdout) < 2)%nat) :
  run_tool subprocess_run json_loads name args
  = Ret (dumps true (JObj [("error", JStr "No response from dashmcp");
                           ("stderr", JStr (take 500 stderr))]))
  ∧ (len (take 500 stderr) ≤ 500)%nat.
Proof.
  split; [|apply len_take].
  unfold run_tool. rewrite Hrun.
  destruct (response_lines stdout) as [|l0 [|l1 ls]]; [done|done|].
  simpl in Hlines. lia.
Qed.

(** A second line that is not JSON: the invalid-JSON error object, with at
    most 500 characters of that line. *)
Theorem run_tool_invalid_json (name : string) (args : list (string * json))
    (stdout stderr line0 line1 : string) (rest : list string)
    (Hrun : subprocess_run (rpc_payload name args) = Completed stdout stderr)
    (Hlines : response_lines stdout = line0 :: line1 :: rest)
    (Hparse : json_loads line1 = None) :
  run_tool subprocess_run json_loads name args
  = Ret (dumps true (JObj [("error", JStr "Invalid JSON from dashmcp");
                           ("raw", JStr (take 500 line1))]))
  ∧ (len (take 500 line1) ≤ 500)%nat.
Proof.
  split; [|apply len_take].
  unfold run_tool. by rewrite Hrun, Hlines, Hparse.
Qed.

(** A response object with an [error] key: the JSON text of that value is
    the result, whatever [result] the response also carries. *)
Theorem run_tool_error_field (name : string) (args : list (string * json))
    (stdout stderr line0 line1 : string) (rest : list string)
    (resp : list (string * json)) (err : json)
    (Hrun : subprocess_run (rpc_payload name args) = Completed stdout stderr)
    (Hlines : response_lines stdout = line0 :: line1 :: rest)
    (Hparse : json_loads line1 = Some (JObj resp))
    (Herr : lookup "error" resp = Some err) :
  run_tool subprocess_run json_loads name args = Ret (dumps true err).
Proof.
  unfold run_tool. rewrite Hrun, Hlines, Hparse. cbn [read_response].
  by rewrite Herr.
Qed.

(** A response object without [error] whose [result] is not an object
    makes [run_tool] raise [AttributeError]: this failure is not turned
    into an error object. *)
Theorem run_tool_raises_on_non_object_result
    (name : string) (args : list (string * json))
    (stdout stderr line0 line1 : string) (rest : list string)
    (resp : list (string * json)) (result : json)
    (Hrun : subprocess_run (rpc_payload name args) = Completed stdout stderr)
    (Hlines : response_lines stdout = line0 :: line1 :: rest)
    (Hparse : json_loads line1 = Some (JObj resp))
    (Hok : lookup "error" resp = None)
    (Hresult : lookup "result" resp = Some result)
    (Hshape : ∀ fields, result ≠ JObj fields) :
  run_tool subprocess_run json_loads name args = Exc AttributeError.
Proof.
  unfold run_tool. rewrite Hrun, Hlines, Hparse. cbn [read_response].
  rewrite Hok. unfold extract_text, get. rewrite Hresult. cbn [default].
  destruct result; try done. by destruct (Hshape fields).
Qed.

(** The displayed call never exceeds the tool name by more than 131
    characters: the arguments are cut to 120. *)
Theorem format_tool_call_is_bounded (name : string) (args : list (string * json)) :
  (len (format_tool_call name args) ≤ len name + 131)%nat.
Proof.
  unfold format_tool_call. rewrite !len_app.
  assert (H : (len (if (120 <? len (dumps false (JObj args)))%nat
                    then take 117 (dumps false (JObj args)) +:+ "..."
                    else dumps false (JObj args)) ≤ 120)%nat).
  { destruct (120 <? len (dumps false (JObj args)))%nat eqn:E.
    - rewrite len_app. pose proof (len_take 117 (dumps false (JObj args))).
      change (len "...") with 3%nat. lia.
    - by apply Nat.ltb_ge in E. }
  change (len "  [TOOL] ") with 9%nat. change (len "(") with 1%nat.
  change (len ")") with 1%nat. lia.
Qed.

End RelayFailures.

Lemma run_tool_no_response_witness :
  Agent.run_tool (fun _ => Agent.Completed (nl +:+ "  " +:+ nl) "dashmcp: no database")
                 Agent.sample_loads "tasks" []
  = Agent.Ret (dumps true (JObj [("error", JStr "No response from dashmcp");
                                 ("stderr", JStr (take 500 "dashmcp: no database"))]))
  ∧ (len (take 500 "dashmcp: no database") ≤ 500)%nat.
Proof.
  apply (run_tool_no_response_line
           (fun _ => Agent.Completed (nl +:+ "  " +:+ nl) "dashmcp: no database")
           Agent.sample_loads "tasks" [] (nl +:+ "  " +:+ nl) "dashmcp: no database").
  - reflexivity.
  - vm_compute. lia.
Defined.

Lemma run_tool_invalid_json_witness :
  Agent.run_tool (fun _ => Agent.Completed ("{}" +:+ nl +:+ "panic: oops" +:+ nl) "")
                 Agent.sample_loads "tasks" []
  = Agent.Ret (dumps true (JObj [("error", JStr "Invalid JSON from dashmcp");
                                 ("raw", JStr (take 500 "panic: oops"))]))
  ∧ (len (take 500 "panic: oops") ≤ 500)%nat.
Proof.
  apply (run_tool_invalid_json
           (fun _ => Agent.Completed ("{}" +:+ nl +:+ "panic: oops" +:+ nl) "")
           Agent.sample_loads "tasks" [] ("{}" +:+ nl +:+ "panic: oops" +:+ nl) ""
           "{}" "panic: oops" []); reflexivity.
Defined.

Lemma run_tool_error_field_witness :
  Agent.run_tool (fun _ => Agent.Completed ("{}" +:+ nl +:+ "{...}" +:+ nl) "")
                 (fun _ => Some (JObj [("error", JObj [("code", JInt (-32601))]);
                                       ("result", JNull)]))
                 "nope" []
  = Agent.Ret (dumps true (JObj [("code", JInt (-32601))])).
Proof.
  apply (run_tool_error_field
           (fun _ => Agent.Completed ("{}" +:+ nl +:+ "{...}" +:+ nl) "")
           (fun _ => Some (JObj [("error", JObj [("code", JInt (-32601))]);
                                 ("result", JNull)]))
           "nope" [] ("{}" +:+ nl +:+ "{...}" +:+ nl) "" "{}" "{...}" []
           [("error", JObj [("code", JInt (-32601))]); ("result", JNull)]);
    reflexivity.
Defined.

Lemma run_tool_raises_witness :
  Agent.run_tool (fun _ => Agent.Completed ("{}" +:+ nl +:+ "{...}" +:+ nl) "")
                 (fun _ => Some (JObj [("id", JInt 1); ("result", JNull)]))
                 "tasks" []
  = Agent.Exc Agent.AttributeError.
Proof.
  apply (run_tool_raises_on_non_object_result
           (fun _ => Agent.Completed ("{}" +:+ nl +:+ "{...}" +:+ nl) "")
           (fun _ => Some (JObj [("id", JInt 1); ("result", JNull)]))
           "tasks" [] ("{}" +:+ nl +:+ "{...}" +:+ nl) "" "{}" "{...}" []
           [("id", JInt 1); ("result", JNull)] JNull);
    try reflexivity.
  discriminate.
Defined.

(** ** The chat loop as a whole *)

Section ChatInvariants.
Import Agent.

Variable subprocess_run : string → proc_outcome.
Variable json_loads : string → option json.
Variable create : list chat_message → api_outcome.

Local Abbreviation run_tools := (Agent.run_tools subprocess_run json_loads).
Local Abbreviation tool_loop := (Agent.tool_loop subprocess_run json_loads create).
Local Abbreviation chat_turn := (Agent.chat_turn subprocess_run json_loads create).
Local Abbreviation chat_step := (Agent.chat_step subprocess_run json_loads create).
Local Abbreviation chat_loop := (Agent.chat_loop subprocess_run json_loads create).

(** The session [s'] continues [s]: earlier turns and earlier printed
    lines are all still there, in place. *)
Local Abbreviation continues s s' :=
  (messages s `prefix_of` messages s' ∧ printed s `prefix_of` printed s').

Lemma continues_refl s : continues s s.
Proof. done. Qed.




(** One result per tool-use block, with that block's identifier and in the
    order of the blocks; one printed line per call; no change to the
    history. *)
Theorem run_tools_answers_every_call (tool_blocks : list api_block) (s s' : session)
    (tool_results : list tool_result)
    (Hrun : run_tools tool_blocks s = Ret (tool_results, s')) :
  map tool_use_id tool_results
  = omap (fun b => match b with ToolUseB id _ _ => Some id | _ => None end) tool_blocks
  ∧ printed s'
    = printed s
      ++ omap (fun b => match b with
                        | ToolUseB _ name input => Some (format_tool_call name input)
                        | _ => None
                        end) tool_blocks
  ∧ messages s' = messages s.
Proof.
  revert s s' tool_results Hrun.
  induction tool_blocks as [|b tool_blocks IH]; intros s s' tool_results H.
  - injection H as <- <-. by rewrite app_nil_r.
  - destruct b as [text|id name input|type text]; cbn [Agent.run_tools omap] in *.
    + by apply IH.
    + destruct (run_tool subprocess_run json_loads name input) as [r|e];
        cbn [bind] in H; [|done].
      destruct (run_tools tool_blocks (print (format_tool_call name input) s))
        as [[rs s1]|e] eqn:E; cbn [bind] in H; [|done].
      injection H as <- <-. cbn [fst snd]. apply IH in E as (E1 & E2 & E3).
      cbn [map tool_use_id]. rewrite E1, E2, E3. simpl.
      by rewrite <- app_assoc.
    + by apply IH.
Qed.






(** Blank lines are skipped without a trace, and a quit word, in any case
    and with blanks around it, ends the loop: the farewell is printed, the
    history is untouched, and nothing typed after it is read. *)
Theorem quit_word_ends_chat (fuel : nat) (blanks : list string) (word : string)
    (rest : list console) (s : session)
    (Hblanks : Forall (fun line => strip line = "") blanks)
    (Hword : lower (strip word) = "quit" ∨ lower (strip word) = "exit"
             ∨ lower (strip word) = "q") :
  chat_loop fuel (map Line blanks ++ Line word :: rest) s
  = Done {| messages := messages s; printed := printed s ++ [farewell] |}.
Proof.
  induction Hblanks as [|line blanks Hline _ IH].
  - cbn [map app Agent.chat_loop Agent.chat_step]. unfold is_quit.
    by destruct Hword as [-> | [-> | ->]].
  - cbn [map app Agent.chat_loop Agent.chat_step]. unfold is_quit.
    rewrite Hline. exact IH.
Qed.

End ChatInvariants.

Lemma run_tools_answers_witness :
  map Agent.tool_use_id
      [{| Agent.tool_use_id := "toolu_1";
          Agent.tool_content := "3 tasks" +:+ nl +:+ "1 blocked" |};
       {| Agent.tool_use_id := "toolu_2";
          Agent.tool_content := "3 tasks" +:+ nl +:+ "1 blocked" |}]
  = ["toolu_1"; "toolu_2"].
Proof.
  pose proof (run_tools_answers_every_call
                (fun _ => Agent.Completed Agent.sample_stdout "") Agent.sample_loads
                [Agent.ToolUseB "toolu_1" "tasks" []; Agent.TextB "and";
                 Agent.ToolUseB "toolu_2" "summary" []]
                Agent.empty_session
                {| Agent.messages := [];
                   Agent.printed := ["  [TOOL] tasks({})"; "  [TOOL] summary({})"] |}
                [{| Agent.tool_use_id := "toolu_1";
                    Agent.tool_content := "3 tasks" +:+ nl +:+ "1 blocked" |};
                 {| Agent.tool_use_id := "toolu_2";
                    Agent.tool_content := "3 tasks" +:+ nl +:+ "1 blocked" |}]
                eq_refl) as [H _].
  exact H.
Defined.


Lemma quit_word_witness :
  Agent.chat_loop (fun _ => Agent.TimeoutExpired) Agent.sample_loads Agent.silent_api 3
    (map Agent.Line ["  "; ""] ++ Agent.Line " QUIT " :: [Agent.Line "unread"])
    Agent.empty_session
  = Agent.Done {| Agent.messages := []; Agent.printed := [Agent.farewell] |}.
Proof.
  apply (quit_word_ends_chat (fun _ => Agent.TimeoutExpired) Agent.sample_loads
           Agent.silent_api 3 ["  "; ""] " QUIT " [Agent.Line "unread"]
           Agent.empty_session).
  - apply Forall_cons. split; [reflexivity|].
    apply Forall_cons. split; [reflexivity|]. apply Forall_nil_2.
  - left. reflexivity.
Defined.

(** ** The model name *)

Section ModelName.
Import AgentBridge.

Lemma after_slash_first (pre rest : string) :
  Forall (fun c => c ≠ "/"%char) (String.list_ascii_of_string pre) →
  after_slash (pre +:+ "/" +:+ rest) = Some rest.
Proof.
  induction pre as [|c pre IH]; intros H; [reflexivity|].
  cbn [String.list_ascii_of_string] in H. apply Forall_cons in H as [Hc H].
  change (String c pre +:+ "/" +:+ rest) with (String c (pre +:+ "/" +:+ rest)).
  cbn [after_slash]. rewrite (proj2 (Ascii.eqb_neq _ _) Hc). by apply IH.
Qed.

(** A model name [provider/model] reaches the SDK as [model]: only the
    part up to the first slash is removed. *)
Theorem provider_prefix_is_stripped
    (query : string → options → upstream) (up : upstream) (p : payload)
    (pre rest : string)
    (Hmodel : payload_model p = Some (pre +:+ "/" +:+ rest))
    (Hpre : Forall (fun c => c ≠ "/"%char) (String.list_ascii_of_string pre))
    (Hquery : ∀ prompt opts, model opts = rest → query prompt opts = up) :
  main query p = main (fun _ _ => up) p.
Proof.
  unfold main. rewrite Hmodel. cbv zeta. cbn [default]. unfold id.
  rewrite (after_slash_first pre rest Hpre). cbn [default]. unfold id.
  destruct (build_prompt (payload_messages p)) as [system prompt].
  destruct (String.eqb prompt ""); [done|].
  by rewrite Hquery.
Qed.

Lemma provider_prefix_witness :
  main (fun _ opts => if String.eqb (model opts) "claude-x/v2"
                      then ([AssistantMessage [TextBlock "Hi"]], Exhausted)
                      else ([], Raised "unknown model"))
       {| payload_model := Some ("acme" +:+ "/" +:+ "claude-x/v2");
          payload_messages := [user_msg "hello"] |}
  = main (fun _ _ => ([AssistantMessage [TextBlock "Hi"]], Exhausted))
         {| payload_model := Some ("acme" +:+ "/" +:+ "claude-x/v2");
            payload_messages := [user_msg "hello"] |}.
Proof.
  apply (provider_prefix_is_stripped _ _ _ "acme" "claude-x/v2").
  - reflexivity.
  - repeat (apply Forall_cons; split; [discriminate|]). apply Forall_nil_2.
  - intros prompt opts ->. reflexivity.
Defined.

End ModelName.

(** ** Reassembling the streamed text *)

Section Reassembly.
Import AgentBridge.

Lemma drop_len_app (a b : string) : drop (len a) (a +:+ b) = b.
Proof. induction a as [|c a IH]; [done|exact IH]. Qed.

Lemma concat_cons (part : string) (parts : list string) :
  concat (part :: parts) = part +:+ concat parts.
Proof.
  unfold concat. destruct parts as [|part' parts]; cbn [join].
  - by rewrite append_nil_r.
  - reflexivity.
Qed.

Lemma concat_app (parts1 parts2 : list string) :
  concat (parts1 ++ parts2) = concat parts1 +:+ concat parts2.
Proof.
  induction parts1 as [|part parts1 IH]; [done|].
  cbn [app]. by rewrite !concat_cons, IH, append_assoc.
Qed.

Lemma content_deltas_at_app i tr1 tr2 :
  content_deltas_at i (tr1 ++ tr2) = content_deltas_at i tr1 ++ content_deltas_at i tr2.
Proof. unfold content_deltas_at. apply omap_app. Qed.

Lemma content_deltas_at_other i j out :
  j ≠ i → content_deltas_at i (map (pair j) out) = [].
Proof.
  intros Hne. unfold content_deltas_at.
  induction out as [|w out IH]; [done|].
  cbn [map]. change ((j, w) :: map (pair j) out) with ([(j, w)] ++ map (pair j) out).
  rewrite omap_app, IH. simpl. by rewrite decide_False.
Qed.

(** What the block at position [i] adds to the content deltas of [i], and
    the count it leaves. *)
Lemma block_content_deltas i b st :
  content_deltas_at i (map (pair i) (process_block i b st).2)
  = match b with
    | TextBlock text =>
        if (emitted (text_lens st) i <? len text)%nat
        then [drop (emitted (text_lens st) i) text] else []
    | _ => []
    end
  ∧ emitted (text_lens (process_block i b st).1) i
    = match b with
      | TextBlock text =>
          if (emitted (text_lens st) i <? len text)%nat
          then len text else emitted (text_lens st) i
      | _ => emitted (text_lens st) i
      end.
Proof.
  unfold content_deltas_at.
  destruct b as [text|thinking|id name input|]; simpl; try done.
  - destruct (_ <? _)%nat; simpl; [|done].
    rewrite decide_True by done. split; [done|].
    rewrite emitted_insert. by rewrite decide_True.
  - destruct (_ <? _)%nat; simpl; [|done]. by rewrite decide_True.
  - case_decide; simpl; [done|]. by rewrite decide_True.
Qed.

Lemma process_block_text_other i j b st :
  j ≠ i → emitted (text_lens (process_block j b st).1) i = emitted (text_lens st) i.
Proof.
  intros Hne. destruct b as [text|thinking|id name input|]; simpl; try done.
  - destruct (_ <? _)%nat; simpl; [|done].
    rewrite emitted_insert. by rewrite decide_False.
  - by destruct (_ <? _)%nat.
  - by case_decide.
Qed.

Lemma trace_blocks_content_above k content st i :
  (i < k)%nat →
  content_deltas_at i (trace_blocks k content st).2 = []
  ∧ emitted (text_lens (trace_blocks k content st).1) i = emitted (text_lens st) i.
Proof.
  revert k st. induction content as [|b content IH]; intros k st Hlt; [done|].
  simpl.
  pose proof (process_block_text_other i k b st) as Hother.
  destruct (process_block k b st) as [st1 out1].
  pose proof (IH (S k) st1) as H.
  destruct (trace_blocks (S k) content st1) as [st2 tr2]. simpl in *.
  rewrite content_deltas_at_app, content_deltas_at_other by lia.
  destruct H as [H1 H2]; [lia|]. rewrite H1, H2, Hother by lia. done.
Qed.

Lemma trace_blocks_content k content st i text :
  (k ≤ i)%nat → content !! (i - k)%nat = Some (TextBlock text) →
  content_deltas_at i (trace_blocks k content st).2
  = (if (emitted (text_lens st) i <? len text)%nat
     then [drop (emitted (text_lens st) i) text] else [])
  ∧ emitted (text_lens (trace_blocks k content st).1) i
    = (if (emitted (text_lens st) i <? len text)%nat
       then len text else emitted (text_lens st) i).
Proof.
  revert k st. induction content as [|b content IH]; intros k st Hle Hb; [done|].
  simpl.
  pose proof (block_content_deltas k b st) as Hblock.
  pose proof (process_block_text_other i k b st) as Hother.
  destruct (process_block k b st) as [st1 out1].
  pose proof (trace_blocks_content_above (S k) content st1 i) as Habove.
  pose proof (IH (S k) st1) as H.
  destruct (trace_blocks (S k) content st1) as [st2 tr2]. simpl in *.
  rewrite content_deltas_at_app.
  destruct (decide (k = i)) as [->|Hne].
  - rewrite Nat.sub_diag in Hb. simpl in Hb. injection Hb as ->.
    destruct Habove as [H1 H2]; [lia|]. destruct Hblock as [Hb1 Hb2].
    rewrite Hb1, H1, H2, Hb2. by rewrite app_nil_r.
  - rewrite content_deltas_at_other by done.
    replace (i - k)%nat with (S (i - S k)) in Hb by lia. simpl in Hb.
    destruct H as [H1 H2]; [lia|done|].
    rewrite H1, H2, Hother by done. done.
Qed.

(** The deltas of block [i] written from a tracking that has emitted [acc]:
    together with [acc] they spell the last text delivered. *)
Lemma run_reassembles i run texts :
  Forall2 (fun content text => content !! i = Some (TextBlock text)) run texts →
  ∀ st acc,
    was_assistant st = true → emitted (text_lens st) i = len acc →
    growing acc texts →
    acc +:+ concat (content_deltas_at i (trace_run run st).2)
    = default acc (last texts).
Proof.
  induction 1 as [|content text run texts Hc _ IH]; intros st acc Hw Hlen Hgrow.
  - simpl. apply append_nil_r.
  - destruct Hgrow as [[ext ->] Hgrow].
    cbn [trace_run]. rewrite (enter_assistant_id st Hw).
    pose proof (trace_blocks_content 0 content st i (acc +:+ ext) (Nat.le_0_l i)) as H.
    rewrite Nat.sub_0_r in H. specialize (H Hc).
    pose proof (trace_blocks_was 0 content st) as Hw1.
    destruct (trace_blocks 0 content st) as [st1 tr1]. simpl in H, Hw1.
    destruct H as [Hd He].
    pose proof (IH st1 (acc +:+ ext)) as IH1.
    destruct (trace_run run st1) as [st2 tr2]. simpl in *.
    rewrite content_deltas_at_app, concat_app, Hd.
    rewrite Hlen, len_app in *.
    assert (Hlast : default acc (last ((acc +:+ ext) :: texts))
                    = default (acc +:+ ext) (last texts)).
    { rewrite last_cons. by destruct (last texts). }
    rewrite Hlast, <- IH1; [|congruence| |done].
    + destruct (len acc <? len acc + len ext)%nat eqn:E.
      * rewrite drop_len_app, concat_cons. unfold concat at 1. cbn [join].
        by rewrite append_nil_r, append_assoc.
      * apply Nat.ltb_ge in E. destruct ext as [|c ext].
        -- unfold concat at 1. cbn [join]. by rewrite !append_nil_r.
        -- unfold len in E. cbn [String.length] in E. lia.
    + rewrite He. destruct (len acc <? len acc + len ext)%nat eqn:E; [done|].
      apply Nat.ltb_ge in E. lia.
Qed.

(** In a run that starts with the tracking reset and in which block [i] is
    a text block whose text only grows, the content deltas written for [i],
    put together, are the last text delivered: nothing is written twice
    and nothing is left out. *)
Theorem text_deltas_reassemble (st : tracking) (run : list (list block))
    (texts : list string) (i : nat)
    (Hreset : was_assistant st = false)
    (Htexts : Forall2 (fun content text => content !! i = Some (TextBlock text))
                      run texts)
    (Hgrow : growing "" texts) :
  concat (content_deltas_at i (trace_run run st).2) = default "" (last texts)
  ∧ map snd (trace_run run st).2 = (feed (map AssistantMessage run) st).2.
Proof.
  split; [|apply trace_run_feed].
  destruct run as [|content run].
  - apply Forall2_nil_inv_l in Htexts as ->. reflexivity.
  - rewrite trace_run_enter.
    apply (run_reassembles i (content :: run) texts Htexts (enter_assistant st) "").
    + apply enter_assistant_was.
    + unfold enter_assistant. by rewrite Hreset.
    + exact Hgrow.
Qed.

Lemma text_deltas_reassemble_witness :
  concat (content_deltas_at 1
            (trace_run [[ThinkingBlock "hm"; TextBlock "Hel"];
                        [ThinkingBlock "hmm"; TextBlock "Hel"];
                        [ThinkingBlock "hmm"; TextBlock "Hello"]]
                       initial_tracking).2)
  = "Hello".
Proof.
  apply (text_deltas_reassemble initial_tracking
           [[ThinkingBlock "hm"; TextBlock "Hel"];
            [ThinkingBlock "hmm"; TextBlock "Hel"];
            [ThinkingBlock "hmm"; TextBlock "Hello"]]
           ["Hel"; "Hel"; "Hello"] 1%nat).
  - reflexivity.
  - repeat (apply Forall2_cons; split; [reflexivity|]). apply Forall2_nil_2.
  - split; [by exists "Hel"|]. split; [by exists ""|]. split; [by exists "lo"|done].
Defined.

End Reassembly.

(** ** A stream that never completes *)

Section Unfinished.
Import AgentBridge.

(** Without a result message the stream still closes properly: after what
    the messages gave comes the sentinel alone when the generator is
    exhausted, and one content delta with the error text, then the
    sentinel, when it raised.  No usage event is written. *)
Theorem stream_without_result (messages : list sdk_message) (ending : stream_end)
    (st : tracking)
    (Hnone : Forall (fun m => is_result m = false) messages) :
  consume messages ending st
  = (feed messages st).2
    ++ match ending with
       | Exhausted => [DoneLine]
       | Raised e =>
           [Data (content_delta (nl +:+ "SDK Error: " +:+ e +:+ nl)); DoneLine]
       end.
Proof.
  rewrite <- (app_nil_r messages) at 1.
  rewrite feed_no_result by done. by destruct ending.
Qed.

Lemma stream_without_result_witness :
  consume [AssistantMessage [TextBlock "Hi"]; OtherMessage] (Raised "boom")
          initial_tracking
  = [Data (content_delta "Hi");
     Data (content_delta (nl +:+ "SDK Error: " +:+ "boom" +:+ nl)); DoneLine].
Proof.
  apply (stream_without_result [AssistantMessage [TextBlock "Hi"]; OtherMessage]
           (Raised "boom") initial_tracking).
  apply Forall_cons. split; [reflexivity|].
  apply Forall_cons. split; [reflexivity|]. apply Forall_nil_2.
Defined.

End Unfinished.

(** ** The suffix diff, block by block *)

Section SuffixDiff.
Import AgentBridge.

Lemma reasoning_deltas_at_app i tr1 tr2 :
  reasoning_deltas_at i (tr1 ++ tr2)
  = reasoning_deltas_at i tr1 ++ reasoning_deltas_at i tr2.
Proof. unfold reasoning_deltas_at. apply omap_app. Qed.

Lemma reasoning_deltas_at_other i j out :
  j ≠ i → reasoning_deltas_at i (map (pair j) out) = [].
Proof.
  intros Hne. unfold reasoning_deltas_at.
  induction out as [|w out IH]; [done|].
  cbn [map]. change ((j, w) :: map (pair j) out) with ([(j, w)] ++ map (pair j) out).
  rewrite omap_app, IH. simpl. by rewrite decide_False.
Qed.

Lemma block_reasoning_deltas i b st :
  reasoning_deltas_at i (map (pair i) (process_block i b st).2)
  = match b with
    | ThinkingBlock thinking =>
        if (emitted (think_lens st) i <? len thinking)%nat
        then [drop (emitted (think_lens st) i) thinking] else []
    | _ => []
    end
  ∧ emitted (think_lens (process_block i b st).1) i
    = match b with
      | ThinkingBlock thinking =>
          if (emitted (think_lens st) i <? len thinking)%nat
          then len thinking else emitted (think_lens st) i
      | _ => emitted (think_lens st) i
      end.
Proof.
  unfold reasoning_deltas_at.
  destruct b as [text|thinking|id name input|]; simpl; try done.
  - destruct (_ <? _)%nat; simpl; [|done]. by rewrite decide_True.
  - destruct (_ <? _)%nat; simpl; [|done].
    rewrite decide_True by done. split; [done|].
    rewrite emitted_insert. by rewrite decide_True.
  - case_decide; simpl; [done|]. by rewrite decide_True.
Qed.

Lemma process_block_think_other i j b st :
  j ≠ i → emitted (think_lens (process_block j b st).1) i = emitted (think_lens st) i.
Proof.
  intros Hne. destruct b as [text|thinking|id name input|]; simpl; try done.
  - by destruct (_ <? _)%nat.
  - destruct (_ <? _)%nat; simpl; [|done].
    rewrite emitted_insert. by rewrite decide_False.
  - by case_decide.
Qed.

Lemma trace_blocks_reasoning_above k content st i :
  (i < k)%nat →
  reasoning_deltas_at i (trace_blocks k content st).2 = []
  ∧ emitted (think_lens (trace_blocks k content st).1) i = emitted (think_lens st) i.
Proof.
  revert k st. induction content as [|b content IH]; intros k st Hlt; [done|].
  simpl.
  pose proof (process_block_think_other i k b st) as Hother.
  destruct (process_block k b st) as [st1 out1].
  pose proof (IH (S k) st1) as H.
  destruct (trace_blocks (S k) content st1) as [st2 tr2]. simpl in *.
  rewrite reasoning_deltas_at_app, reasoning_deltas_at_other by lia.
  destruct H as [H1 H2]; [lia|]. rewrite H1, H2, Hother by lia. done.
Qed.

Lemma trace_blocks_reasoning k content st i thinking :
  (k ≤ i)%nat → content !! (i - k)%nat = Some (ThinkingBlock thinking) →
  reasoning_deltas_at i (trace_blocks k content st).2
  = (if (emitted (think_lens st) i <? len thinking)%nat
     then [drop (emitted (think_lens st) i) thinking] else [])
  ∧ emitted (think_lens (trace_blocks k content st).1) i
    = (if (emitted (think_lens st) i <? len thinking)%nat
       then len thinking else emitted (think_lens st) i).
Proof.
  revert k st. induction content as [|b content IH]; intros k st Hle Hb; [done|].
  simpl.
  pose proof (block_reasoning_deltas k b st) as Hblock.
  pose proof (process_block_think_other i k b st) as Hother.
  destruct (process_block k b st) as [st1 out1].
  pose proof (trace_blocks_reasoning_above (S k) content st1 i) as Habove.
  pose proof (IH (S k) st1) as H.
  destruct (trace_blocks (S k) content st1) as [st2 tr2]. simpl in *.
  rewrite reasoning_deltas_at_app.
  destruct (decide (k = i)) as [->|Hne].
  - rewrite Nat.sub_diag in Hb. simpl in Hb. injection Hb as ->.
    destruct Habove as [H1 H2]; [lia|]. destruct Hblock as [Hb1 Hb2].
    rewrite Hb1, H1, H2, Hb2. by rewrite app_nil_r.
  - rewrite reasoning_deltas_at_other by done.
    replace (i - k)%nat with (S (i - S k)) in Hb by lia. simpl in Hb.
    destruct H as [H1 H2]; [lia|done|].
    rewrite H1, H2, Hother by done. done.
Qed.

(** One message with the text [text] at position [i], for text and for
    thinking alike: the unseen suffix is the one delta of [i], and the
    count becomes the larger of the old count and the length. *)
Lemma trace_blocks_suffix thinking content st i text :
  content !! i = Some (text_block thinking text) →
  deltas_at thinking i (trace_blocks 0 content st).2
  = (if (emitted (lens_of thinking st) i <? len text)%nat
     then [drop (emitted (lens_of thinking st) i) text] else [])
  ∧ emitted (lens_of thinking (trace_blocks 0 content st).1) i
    = Nat.max (emitted (lens_of thinking st) i) (len text).
Proof.
  intros Hb.
  assert (Hmax : ∀ a b, (if (a <? b)%nat then b else a) = Nat.max a b).
  { intros a b. destruct (a <? b)%nat eqn:E.
    - apply Nat.ltb_lt in E. lia.
    - apply Nat.ltb_ge in E. lia. }
  destruct thinking; cbn [text_block deltas_at lens_of] in *.
  - destruct (trace_blocks_reasoning 0 content st i text (Nat.le_0_l i)) as [H1 H2].
    { by rewrite Nat.sub_0_r. }
    by rewrite H1, H2, Hmax.
  - destruct (trace_blocks_content 0 content st i text (Nat.le_0_l i)) as [H1 H2].
    { by rewrite Nat.sub_0_r. }
    by rewrite H1, H2, Hmax.
Qed.

Lemma handle_assistant_trace content st :
  handle_message (AssistantMessage content) st
  = ((trace_blocks 0 content (enter_assistant st)).1,
     map snd (trace_blocks 0 content (enter_assistant st)).2, false).
Proof.
  cbn [handle_message].
  destruct (trace_blocks_process 0 content (enter_assistant st)) as [H1 H2].
  destruct (process_blocks 0 content (enter_assistant st)) as [st' out].
  simpl in H1, H2. by rewrite H1, H2.
Qed.

(** C5: the suffix diff of one block index, for text ([thinking = false])
    and for thinking text alike.  Two assistant messages in a row carry the
    same full text at index [i], whatever their other blocks are.  The first
    writes for [i] exactly the suffix not emitted before (nothing when there
    is none) and raises the count to the larger of the old count and the
    length; the second writes nothing for [i] and leaves the count.  Besides,
    re-processing any block, or a whole message, writes nothing, and along a
    run the counts never decrease. *)
Theorem suffix_diff_idempotent_and_monotone
    (st : tracking) (thinking : bool) (i : nat) (text : string)
    (content1 content2 : list block)
    (Hfirst : content1 !! i = Some (text_block thinking text))
    (Hsecond : content2 !! i = Some (text_block thinking text)) :
  let prev := emitted (lens_of thinking (enter_assistant st)) i in
  let r1 := trace_blocks 0 content1 (enter_assistant st) in
  let r2 := trace_blocks 0 content2 r1.1 in
  handle_message (AssistantMessage content1) st = (r1.1, map snd r1.2, false)
  ∧ handle_message (AssistantMessage content2) r1.1 = (r2.1, map snd r2.2, false)
  ∧ deltas_at thinking i r1.2
    = (if (prev <? len text)%nat then [drop prev text] else [])
  ∧ emitted (lens_of thinking r1.1) i = Nat.max prev (len text)
  ∧ deltas_at thinking i r2.2 = []
  ∧ emitted (lens_of thinking r2.1) i = emitted (lens_of thinking r1.1) i
  ∧ (∀ j b, process_block j b (process_block j b st).1
            = ((process_block j b st).1, []))
  ∧ (∀ content,
       let st1 := (handle_message (AssistantMessage content) st).1.1 in
       handle_message (AssistantMessage content) st1 = (st1, [], false))
  ∧ (∀ run1 run2 j,
       let st0 := enter_assistant st in
       let st1 := (feed (map AssistantMessage run1) st0).1 in
       let st2 := (feed (map AssistantMessage (run1 ++ run2)) st0).1 in
       (emitted (text_lens st1) j ≤ emitted (text_lens st2) j)%nat
       ∧ (emitted (think_lens st1) j ≤ emitted (think_lens st2) j)%nat).
Proof.
  cbv zeta.
  pose proof (trace_blocks_was 0 content1 (enter_assistant st)) as Hw.
  rewrite enter_assistant_was in Hw.
  destruct (trace_blocks_suffix thinking content1 (enter_assistant st) i text Hfirst)
    as [Hd1 He1].
  destruct (trace_blocks_suffix thinking content2
              (trace_blocks 0 content1 (enter_assistant st)).1 i text Hsecond)
    as [Hd2 He2].
  split; [apply handle_assistant_trace|].
  split.
  { rewrite handle_assistant_trace. by rewrite (enter_assistant_id _ Hw). }
  split; [exact Hd1|]. split; [exact He1|].
  assert (Hltb : (emitted (lens_of thinking
                     (trace_blocks 0 content1 (enter_assistant st)).1) i
                  <? len text)%nat = false).
  { apply Nat.ltb_ge. rewrite He1. lia. }
  split; [by rewrite Hd2, Hltb|].
  split; [rewrite He2, He1; lia|].
  split; [|split].
  - intros j b. apply settled_noop, process_block_settles.
  - intros content. cbn [handle_message].
    pose proof (process_blocks_grows 0 content (enter_assistant st)) as Hg.
    pose proof (process_blocks_settles 0 content (enter_assistant st)) as Hs.
    destruct (process_blocks 0 content (enter_assistant st)) as [st1 out].
    cbn [fst snd] in *.
    assert (Hw1 : was_assistant st1 = true).
    { destruct Hg as (_ & _ & _ & ->). apply enter_assistant_was. }
    rewrite (enter_assistant_id st1 Hw1).
    rewrite all_settled_noop; [done|].
    intros k b Hk. by apply Hs.
  - intros run1 run2 j. rewrite feed_app.
    pose proof (feed_run_grows run1 (enter_assistant st) (enter_assistant_was st)) as H1.
    destruct (feed (map AssistantMessage run1) (enter_assistant st)) as [st1 out1].
    assert (Hw1 : was_assistant st1 = true).
    { destruct H1 as (_ & _ & _ & H1). simpl in H1. rewrite H1.
      apply enter_assistant_was. }
    pose proof (feed_run_grows run2 st1 Hw1) as H2.
    destruct (feed (map AssistantMessage run2) st1) as [st2 out2].
    destruct H2 as (Ht & Hk & _). split; [apply Ht|apply Hk].
Qed.

Lemma suffix_diff_witness :
  content_deltas_at 1
    (trace_blocks 0 [ThinkingBlock "hm"; TextBlock "Hello"] initial_tracking).2
  = ["Hello"]
  ∧ content_deltas_at 1
      (trace_blocks 0
         [ThinkingBlock "hmm"; TextBlock "Hello"; ToolUseBlock "t1" "read" (InputDict [])]
         (trace_blocks 0 [ThinkingBlock "hm"; TextBlock "Hello"]
                       (enter_assistant initial_tracking)).1).2
    = [].
Proof.
  pose proof (suffix_diff_idempotent_and_monotone initial_tracking false 1 "Hello"
                [ThinkingBlock "hm"; TextBlock "Hello"]
                [ThinkingBlock "hmm"; TextBlock "Hello";
                 ToolUseBlock "t1" "read" (InputDict [])]
                eq_refl eq_refl) as H.
  cbv zeta in H. destruct H as (_ & _ & H3 & _ & H5 & _).
  split; [|exact H5].
  etrans; [|exact H3]. reflexivity.
Defined.

End SuffixDiff.

(** ** The bridge on its raw standard input *)

Section StdinOutput.
Import AgentBridge BridgeStdin.

Variable py_str : json → string.
Variable query : json → raw_options → upstream.

(** Either [main] raised before its [try], having written nothing, or it
    wrote lines of which the sentinel is the last and only the last. *)
Lemma main_stdin_once (payload : json) (out : list sse) :
  main_stdin py_str query payload = Agent.Ret out →
  ∃ pre, out = pre ++ [DoneLine] ∧ Forall (fun w => w ≠ DoneLine) pre.
Proof.
  destruct payload as [| | | | | |fields]; try discriminate.
  cbn [main_stdin].
  destruct (strip_provider _) as [model|e]; cbn [Agent.bind]; [|discriminate].
  destruct (build_prompt_value py_str _) as [[system prompt]|e];
    cbn [Agent.bind]; [|discriminate].
  destruct (negb (truthy prompt)).
  - intros [= <-]. destruct (emit_done_once 0 0) as (pre & -> & Hpre).
    exists (emit (content_delta "Error: No user message") ++ pre).
    split; [by rewrite <- app_assoc|].
    apply Forall_app. split; [|done].
    apply Forall_cons. split; [discriminate|apply Forall_nil_2].
  - destruct (query _ _) as [messages ending]. intros [= <-].
    apply consume_once.
Qed.

Lemma scan_values_objects (msgs : list json) (acc : json * list raw_turn) :
  forallb is_object msgs = true → ∃ acc', scan_values msgs acc = Agent.Ret acc'.
Proof.
  revert acc. induction msgs as [|msg msgs IH]; intros acc H; [by eexists|].
  cbn [forallb] in H. apply andb_true_iff in H as [Hmsg H].
  destruct msg as [| | | | | |fields]; try discriminate.
  cbn [scan_values scan_value]. destruct acc as [system history].
  cbn [msg_get Agent.bind]. by apply IH.
Qed.

Lemma main_stdin_returns (payload : json) :
  well_formed payload = true → ∃ out, main_stdin py_str query payload = Agent.Ret out.
Proof.
  destruct payload as [| | | | | |fields]; try discriminate.
  cbn [well_formed main_stdin]. intros H.
  apply andb_true_iff in H as [Hmodel Hmsgs].
  assert (Hm : ∃ model, strip_provider (get "model" (JStr "claude-opus-4-6") fields)
                        = Agent.Ret model).
  { unfold get. destruct (lookup "model" fields) as [[| | | |s| |]|];
      try discriminate; cbn [default]; unfold id; cbn [strip_provider]; by eexists. }
  destruct Hm as [model ->]. cbn [Agent.bind].
  assert (Hb : ∃ built, build_prompt_value py_str (get "messages" (JArr []) fields)
                        = Agent.Ret built).
  { unfold get. destruct (lookup "messages" fields) as [[| | | | |msgs|]|];
      try discriminate; cbn [default]; unfold id;
      cbn [build_prompt_value Agent.iterate Agent.bind].
    - destruct (scan_values_objects msgs (JStr "", []) Hmsgs) as [[system history] ->].
      cbn [Agent.bind]. destruct (last history) as [final|]; [|by eexists].
      destruct (negb _); [by eexists|]. destruct (_ =? _)%nat; by eexists.
    - by eexists. }
  destruct Hb as [[system prompt] ->]. cbn [Agent.bind].
  destruct (negb (truthy prompt)); [by eexists|].
  destruct (query _ _). by eexists.
Qed.

Lemma ends_with_done_text (pre : list sse) :
  stdout_text (pre ++ [DoneLine]) = stdout_text pre +:+ "data: [DONE]" +:+ nl
  ∧ (stdout_text pre = "" ∨ ∃ t, stdout_text pre = t +:+ nl).
Proof.
  split; [|apply stdout_text_lines].
  rewrite stdout_text_app. simpl. by rewrite append_nil_r.
Qed.

(** C1, amended: when the standard input is an object whose [model], if
    present, is a string and whose [messages], if present, is an array of
    objects, [main] writes a sequence of complete lines whose last one is
    [data: [DONE]], however the SDK stream goes; and the same holds of every
    invocation that gets through the statements before the [try] without
    raising. *)
Theorem stdin_output_ends_with_done (payload : json)
    (Hshape : well_formed payload = true) :
  (∃ pre, main_stdin py_str query payload = Agent.Ret (pre ++ [DoneLine])
          ∧ stdout_text (pre ++ [DoneLine])
            = stdout_text pre +:+ "data: [DONE]" +:+ nl
          ∧ (stdout_text pre = "" ∨ ∃ t, stdout_text pre = t +:+ nl))
  ∧ (∀ payload' out,
       main_stdin py_str query payload' = Agent.Ret out →
       ∃ pre, out = pre ++ [DoneLine]
              ∧ stdout_text out = stdout_text pre +:+ "data: [DONE]" +:+ nl
              ∧ (stdout_text pre = "" ∨ ∃ t, stdout_text pre = t +:+ nl)).
Proof.
  split.
  - destruct (main_stdin_returns payload Hshape) as [out Hout].
    destruct (main_stdin_once payload out Hout) as (pre & -> & _).
    exists pre. split; [done|]. apply ends_with_done_text.
  - intros payload' out Hout.
    destruct (main_stdin_once payload' out Hout) as (pre & -> & _).
    exists pre. split; [done|]. apply ends_with_done_text.
Qed.


End StdinOutput.

(** ** [AgentBridge.main] is [main] on payloads of the expected shape *)

Section TypedPayload.
Import AgentBridge BridgeStdin.

Variable py_str : json → string.
Variable query : json → raw_options → upstream.

Local Abbreviation lift := (fun t : turn => (fst t, JStr (snd t))).

Lemma get_message_json (key : string) (msg : message) :
  get key (JStr "") (map (fun kv => (fst kv, JStr (snd kv))) msg)
  = JStr (get key "" msg).
Proof.
  unfold get. induction msg as [|[k v] msg IH]; [done|].
  cbn [map lookup fst snd]. by destruct (String.eqb key k).
Qed.

Lemma scan_value_typed (system : string) (history : list turn) (msg : message) :
  scan_value (JStr system, map lift history) (message_json msg)
  = Agent.Ret (JStr (scan_message (system, history) msg).1,
               map lift (scan_message (system, history) msg).2).
Proof.
  unfold scan_value, message_json, scan_message. cbn [msg_get Agent.bind].
  rewrite !get_message_json. cbn [is_str truthy].
  destruct (String.eqb (get "role" "" msg) "system"); [done|].
  destruct (String.eqb (get "role" "" msg) "user").
  { cbn [fst snd]. by rewrite map_app. }
  destruct (_ && _); [|done]. cbn [fst snd]. by rewrite map_app.
Qed.

Lemma scan_values_typed (msgs : list message) (system : string) (history : list turn) :
  scan_values (map message_json msgs) (JStr system, map lift history)
  = Agent.Ret (JStr (fold_left scan_message msgs (system, history)).1,
               map lift (fold_left scan_message msgs (system, history)).2).
Proof.
  revert system history.
  induction msgs as [|msg msgs IH]; intros system history; [done|].
  cbn [map scan_values fold_left]. rewrite scan_value_typed. cbn [Agent.bind].
  destruct (scan_message (system, history) msg) as [system' history'].
  apply IH.
Qed.

Lemma last_map {A B : Type} (f : A → B) (l : list A) : last (map f l) = f <$> last l.
Proof.
  induction l as [|x l IH]; [done|].
  cbn [map]. rewrite !last_cons, IH. by destruct (last l).
Qed.

Lemma build_prompt_value_typed (msgs : list message) :
  build_prompt_value py_str (JArr (map message_json msgs))
  = Agent.Ret (JStr (build_prompt msgs).1, JStr (build_prompt msgs).2).
Proof.
  unfold build_prompt_value, build_prompt, scan_messages.
  cbn [Agent.iterate Agent.bind].
  assert (Hscan : scan_values (map message_json msgs) (JStr "", [])
                   = Agent.Ret (JStr (fold_left scan_message msgs ("", [])).1,
                                map lift (fold_left scan_message msgs ("", [])).2))
    by exact (scan_values_typed msgs "" []).
  rewrite Hscan. cbn [Agent.bind].
  destruct (fold_left scan_message msgs ("", [])) as [system history].
  cbn [fst snd]. rewrite last_map.
  destruct (last history) as [final|]; [|done]. cbn [fmap option_fmap option_map fst snd].
  destruct (negb _); [done|]. rewrite length_map.
  destruct (_ =? _)%nat; [done|].
  cbn [fst snd str_of]. rewrite firstn_map, map_map. reflexivity.
Qed.

(** The two models agree: on the JSON of a payload, [main] returns, and
    what it writes is what [AgentBridge.main] writes. *)
Lemma main_stdin_typed (p : payload) :
  main_stdin py_str query (payload_json p)
  = Agent.Ret (main (fun prompt opts => query (JStr prompt) (options_raw opts)) p).
Proof.
  unfold main_stdin, payload_json, main.
  assert (Hmodel : get "model" (JStr "claude-opus-4-6")
                     (match payload_model p with
                      | Some m => [("model", JStr m)]
                      | None => []
                      end
                      ++ [("messages", JArr (map message_json (payload_messages p)))])
                   = JStr (default "claude-opus-4-6" (payload_model p))).
  { by destruct (payload_model p). }
  assert (Hmsgs : get "messages" (JArr [])
                    (match payload_model p with
                     | Some m => [("model", JStr m)]
                     | None => []
                     end
                     ++ [("messages", JArr (map message_json (payload_messages p)))])
                  = JArr (map message_json (payload_messages p))).
  { by destruct (payload_model p). }
  rewrite Hmodel, Hmsgs. cbn [strip_provider Agent.bind].
  rewrite build_prompt_value_typed. cbn [Agent.bind].
  destruct (build_prompt (payload_messages p)) as [system prompt].
  cbn [fst snd truthy]. rewrite negb_involutive.
  destruct (String.eqb prompt ""); [done|].
  unfold options_raw. cbn [system_prompt model include_partial_messages cwd].
  destruct (String.eqb system ""); cbn [negb fmap option_fmap option_map];
    by destruct (query _ _).
Qed.

End TypedPayload.

Lemma null_model_makes_main_raise :
  BridgeStdin.main_stdin (fun _ => "")
    (fun _ _ => ([AgentBridge.ResultMessage None], AgentBridge.Exhausted))
    BridgeStdin.null_model_payload
  = Agent.Exc Agent.TypeError
  ∧ ¬ ∃ pre, BridgeStdin.main_stdin (fun _ => "")
               (fun _ _ => ([AgentBridge.ResultMessage None], AgentBridge.Exhausted))
               BridgeStdin.null_model_payload
             = Agent.Ret (pre ++ [AgentBridge.DoneLine]).
Proof. split; [reflexivity|]. intros [pre H]. discriminate H. Qed.

Lemma stdin_output_witness :
  ∃ pre,
    BridgeStdin.main_stdin (fun _ => "")
      (fun _ _ => ([AgentBridge.AssistantMessage [AgentBridge.TextBlock "Hi"]],
                   AgentBridge.Raised "boom"))
      (JObj [("model", JStr "acme/claude-x");
             ("messages", JArr [JObj [("role", JStr "user"); ("content", JStr "hello")]])])
    = Agent.Ret (pre ++ [AgentBridge.DoneLine])
    ∧ AgentBridge.stdout_text (pre ++ [AgentBridge.DoneLine])
      = AgentBridge.stdout_text pre +:+ "data: [DONE]" +:+ nl
    ∧ (AgentBridge.stdout_text pre = "" ∨ ∃ t, AgentBridge.stdout_text pre = t +:+ nl).
Proof.
  apply (stdin_output_ends_with_done (fun _ => "")
           (fun _ _ => ([AgentBridge.AssistantMessage [AgentBridge.TextBlock "Hi"]],
                        AgentBridge.Raised "boom"))
           (JObj [("model", JStr "acme/claude-x");
                  ("messages",
                   JArr [JObj [("role", JStr "user"); ("content", JStr "hello")]])])).
  reflexivity.
Defined.


(** C4, as the spec words it, fails: a second line that parses and has no
    [error] field need not give a result.  On [{"id": 1, "result": null}]
    the call [result.get] raises. *)
Lemma null_result_makes_run_tool_raise :
  lookup "error" [("id", JInt 1); ("result", JNull)] = None
  ∧ Agent.run_tool (fun _ => Agent.Completed ("{}" +:+ nl +:+ "{...}" +:+ nl) "")
                   (fun _ => Some (JObj [("id", JInt 1); ("result", JNull)]))
                   "tasks" []
    = Agent.Exc Agent.AttributeError
  ∧ ¬ ∃ text, Agent.run_tool
                (fun _ => Agent.Completed ("{}" +:+ nl +:+ "{...}" +:+ nl) "")
                (fun _ => Some (JObj [("id", JInt 1); ("result", JNull)]))
                "tasks" []
              = Agent.Ret text.
Proof.
  split; [reflexivity|]. split; [reflexivity|]. intros [text H]. discriminate H.
Qed.
